(** * Fleet orchestration tasks (api/tacticalrmm/agents/tasks.py)

    A shallow embedding of the task functions of the agents app: the
    per-agent update decision, the bounded-retry uninstall workflow, the
    outage sweep with its notification jobs, and the script-run notifier.

    The registry (the Django tables the tasks read and write) is explicit
    state; everything that leaves the process (log lines, NATS commands,
    HTTP posts to the salt API, notifier calls, scheduled jobs, SMTP
    sessions) is recorded, in order, in a trace of events; what the outside
    answers is read from an environment of oracles. *)

From Stdlib Require Import ZArith NArith String Ascii List Lia.
From Equations Require Import Equations.
From stdpp Require Import gmap strings list.

Set Warnings "-register-all".

(** ** Version numbers (packaging.version, plain release versions) *)

Module pyver.

(** The release segment of a version: ["1.1.11"] is [[1; 1; 11]]. *)
Definition Version := list N.

Definition digit (c : ascii) : option N :=
  let n := N_of_ascii c in
  if ((48 <=? n) && (n <=? 57))%N then Some (n - 48)%N else None.

(** Reads dot-separated decimal numbers; [cur] is the number being read,
    [acc] the numbers already read, most recent first.  A version with
    anything other than digits and single dots between them (pre-release
    tags, epochs, local parts) is outside this model and is rejected. *)
Fixpoint release (s : string) (cur : option N) (acc : list N)
  : option Version :=
  match s with
  | EmptyString =>
      match cur with
      | Some n => Some (rev (n :: acc))
      | None => None
      end
  | String c rest =>
      if Ascii.eqb c "."%char then
        match cur with
        | Some n => release rest None (n :: acc)
        | None => None
        end
      else
        match digit c with
        | Some d =>
            release rest
              (Some (match cur with Some n => 10 * n + d | None => d end)%N)
              acc
        | None => None
        end
  end.

Definition parse (s : string) : option Version := release s None [].

(** The comparison key drops the trailing zeros of the release, so that
    1.2 and 1.2.0 are the same version. *)
Fixpoint _cmpkey (r : Version) : list N :=
  match r with
  | [] => []
  | x :: r' =>
      match _cmpkey r' with
      | [] => if (x =? 0)%N then [] else [x]
      | k => x :: k
      end
  end.

(** Python's order on tuples: the first difference decides, and a proper
    prefix comes first. *)
Fixpoint tuple_compare (a b : list N) : comparison :=
  match a, b with
  | [], [] => Eq
  | [], _ :: _ => Lt
  | _ :: _, [] => Gt
  | x :: a', y :: b' =>
      match (x ?= y)%N with
      | Eq => tuple_compare a' b'
      | c => c
      end
  end.

Definition compare (a b : Version) : comparison :=
  tuple_compare (_cmpkey a) (_cmpkey b).

Definition ltb (a b : Version) : bool :=
  match compare a b with Lt => true | _ => false end.
Definition leb (a b : Version) : bool :=
  match compare a b with Gt => false | _ => true end.

End pyver.

(** ** Python values: JSON payloads and dictionaries *)

Inductive pyval :=
| PNone
| PBool (b : bool)
| PInt (z : Z)
| PStr (s : string)
| PList (l : list pyval)
| PDict (d : gmap string pyval).

(** ** The registry *)

Module Agent.
(** The fields and properties of an agent that the tasks read.  [arch],
    [has_nats], [status], [winagent_dl] and [win_inno_exe] are properties
    of the model class, taken here as read. *)
Record t := {
  pk : Z;
  hostname : string;
  version : string;
  arch : option string;
  has_nats : bool;
  status : string;
  overdue_email_alert : bool;
  overdue_text_alert : bool;
  maintenance_mode : bool;
  winagent_dl : string;
  win_inno_exe : string;
}.
End Agent.

Module PendingAction.
Record t := {
  pk : Z;
  agent : Z;
  action_type : string;
  status : string;
  details : gmap string pyval;
}.

(** Modelled from the spec: the model class of PendingAction is not among
    the sources; a PendingAction created without a status is [pending]
    (the scenario of a created action that the next call finds pending). *)
Definition default_status : string := "pending".
End PendingAction.

Module AgentOutage.
Record t := {
  pk : Z;
  agent : Z;
  recovery_time : option Z;
  outage_email_sent : bool;
  outage_sms_sent : bool;
  recovery_email_sent : bool;
  recovery_sms_sent : bool;
}.

(** Modelled from the spec: the model class of AgentOutage is not among
    the sources; an outage is active while no resolution is recorded. *)
Definition is_active (o : t) : bool :=
  match recovery_time o with None => true | Some _ => false end.

(** [AgentOutage(agent=agent)]: nothing resolved, nothing sent. *)
Definition new (pk agent : Z) : t :=
  {| pk := pk; agent := agent; recovery_time := None;
     outage_email_sent := false; outage_sms_sent := false;
     recovery_email_sent := false; recovery_sms_sent := false |}.
End AgentOutage.

Module Script.
Record t := { pk : Z; name : string }.
End Script.

Module CoreSettings.
Record t := {
  agent_auto_update : bool;
  smtp_from_email : string;
  email_alert_recipients : list string;
  smtp_host : string;
  smtp_port : Z;
  smtp_requires_auth : bool;
  smtp_host_user : string;
  smtp_host_password : string;
}.
End CoreSettings.

(** django.conf.settings, the part the tasks read. *)
Record Settings := {
  LATEST_AGENT_VER : string;
  SALT_HOST : string;
  SALT_USERNAME : string;
  SALT_PASSWORD : string;
}.

(** ** Effects *)

Inductive level := INFO | WARNING | ERROR.

Inductive notifier :=
| send_outage_email | send_recovery_email | send_outage_sms | send_recovery_sms.

Inductive job := agent_outage_email_task_job | agent_outage_sms_task_job.

Inductive outage_field :=
| f_outage_email_sent | f_recovery_email_sent
| f_outage_sms_sent | f_recovery_sms_sent.

Inductive smtp_action :=
| SmtpConnect (host : string) (port : Z) (timeout : Z)
| SmtpEhlo
| SmtpStarttls
| SmtpLogin (user password : string)
| SmtpSendMessage (subject from to body : string)
| SmtpQuit.

(** What the tasks do to the outside, in the order they do it. *)
Inductive event :=
| Log (lvl : level) (msg : string)
| NatsCmd (agent : Z) (data : gmap string pyval) (wait : bool) (timeout : option Z)
| HttpPost (url : string) (body : pyval) (timeout : Z)
| Sleep (seconds : Z)
| Notify (n : notifier) (outage : Z)
| Delay (j : job) (pk : Z)
| Smtp (a : smtp_action).

Record world := {
  agents : list Agent.t;
  pendingactions : list PendingAction.t;   (* in primary-key order *)
  pendingaction_seq : Z;                    (* next primary key *)
  outages : list AgentOutage.t;             (* in primary-key order *)
  outage_seq : Z;                           (* next primary key *)
  scripts : list Script.t;
  coresettings : list CoreSettings.t;
  trace : list event;
}.

Inductive exn :=
| DoesNotExist (model : string)
| InvalidVersion (s : string)
| KeyError (k : string)
| IndexError
| TypeError
| AttributeError
| ConnectionError
| JSONDecodeError
| NotifierError
| SMTPException
| ValueError.

Inductive result (A : Type) :=
| Ok (a : A)
| Raise (e : exn).
Arguments Ok {A} a.
Arguments Raise {A} e.

#[global] Instance result_ret : MRet result := λ A a, Ok a.
#[global] Instance result_bind : MBind result := λ A B f r,
  match r with
  | Ok a => f a
  | Raise e => Raise e
  end.

(** A task is a function of the world that ends with a value or a raised
    exception; what it did before raising stays done. *)
Definition M (A : Type) : Type := world → result A * world.

#[global] Instance M_ret : MRet M := λ A a w, (Ok a, w).
#[global] Instance M_bind : MBind M := λ A B f c w,
  match c w with
  | (Ok a, w') => f a w'
  | (Raise e, w') => (Raise e, w')
  end.

(** A computation that touches nothing, run inside a task. *)
Definition lift {A} (r : result A) : M A := λ w, (r, w).
Definition raise {A} (e : exn) : M A := lift (Raise e).
Definition gets {A} (f : world → A) : M A := λ w, (Ok (f w), w).
Definition modify (f : world → world) : M unit := λ w, (Ok tt, f w).

(** [try: c except Exception: h] *)
Definition try_except {A} (c : M A) (h : exn → M A) : M A := λ w,
  match c w with
  | (Ok a, w') => (Ok a, w')
  | (Raise e, w') => h e w'
  end.

Definition set_trace (t : list event) (w : world) : world :=
  {| agents := agents w; pendingactions := pendingactions w;
     pendingaction_seq := pendingaction_seq w; outages := outages w;
     outage_seq := outage_seq w; scripts := scripts w;
     coresettings := coresettings w; trace := t |}.

Definition emit (e : event) : M unit := modify (λ w, set_trace (trace w ++ [e]) w).

Definition logger (lvl : level) (msg : string) : M unit := emit (Log lvl msg).

Definition pyver_parse (s : string) : result pyver.Version :=
  match pyver.parse s with
  | Some v => Ok v
  | None => Raise (InvalidVersion s)
  end.

(** [pyver.parse(x)] on a value read from a JSON field. *)
Definition pyver_parse_val (v : pyval) : result pyver.Version :=
  match v with
  | PStr s => pyver_parse s
  | _ => Raise TypeError
  end.

(** [d[k]] on a dictionary. *)
Definition getitem (d : gmap string pyval) (k : string) : result pyval :=
  match d !! k with
  | Some v => Ok v
  | None => Raise (KeyError k)
  end.

(** [v[k]] and [v[i]] on a value decoded from JSON. *)
Definition subscript_key (v : pyval) (k : string) : result pyval :=
  match v with
  | PDict d => getitem d k
  | _ => Raise TypeError
  end.

Definition subscript_index (v : pyval) (i : nat) : result pyval :=
  match v with
  | PList l =>
      match l !! i with
      | Some x => Ok x
      | None => Raise IndexError
      end
  | PStr s =>
      match String.get i s with
      | Some c => Ok (PStr (String c EmptyString))
      | None => Raise IndexError
      end
  | PDict _ => Raise (KeyError "0")
  | _ => Raise TypeError
  end.

(** [v == s] for a string literal [s]. *)
Definition eq_str (v : pyval) (s : string) : bool :=
  match v with
  | PStr s' => String.eqb s' s
  | _ => false
  end.

(** The characters at which [str.splitlines] ends a line; a [string] is
    read as a sequence of characters with codes below 256. *)
Definition is_line_boundary (c : ascii) : bool :=
  let n := nat_of_ascii c in
  ((10 <=? n) && (n <=? 13) || (28 <=? n) && (n <=? 30) || (n =? 133))%nat.

(** [len(value.splitlines()) > 1]: some text follows the first line break
    (a carriage return and the line feed right after it are one break). *)
Fixpoint has_second_line (value : string) : bool :=
  match value with
  | EmptyString => false
  | String c rest =>
      if is_line_boundary c then
        match rest with
        | EmptyString => false
        | String c' rest' =>
            if Ascii.eqb c (ascii_of_nat 13) && Ascii.eqb c' (ascii_of_nat 10)
            then negb (String.eqb rest' EmptyString)
            else true
        end
      else has_second_line rest
  end.

(** [msg[name] = value] on an [EmailMessage]: a value of more than one line
    is refused with ValueError. *)
Definition set_header (value : string) : result unit :=
  if has_second_line value then Raise ValueError else Ok tt.

(** ** What the outside answers *)

Record Response := { json_body : option pyval }.

Record Env := {
  (* the reply to a bounded NATS call, or the string "timeout" *)
  nats_reply : Z → gmap string pyval → pyval;
  (* the n-th HTTP post of the run: a response, or None when it raises *)
  http_post : nat → option Response;
  (* whether the notifier call on an outage returns (or raises) *)
  notifier_returns : notifier → Z → bool;
  (* whether an SMTP step succeeds (or raises) *)
  smtp_ok : smtp_action → bool;
  (* the source of random.randint *)
  random_seed : Z;
  (* "{:.4f}".format(v) and str(v) inside an f-string *)
  format_4f : pyval → option string;
  py_str : pyval → string;
}.

Fixpoint for_each {A} (l : list A) (body : A → M unit) : M unit :=
  match l with
  | [] => mret tt
  | x :: l' => body x;; for_each l' body
  end.

Definition join (sep : string) (l : list string) : string := String.concat sep l.

Definition is_http_post (e : event) : bool :=
  match e with HttpPost _ _ _ => true | _ => false end.

(** How many HTTP posts the trace holds. *)
Definition posts (t : list event) : nat := length (List.filter is_http_post t).

(** ** Registry operations *)

(** [Agent.objects.get(pk=pk)] *)
Definition Agent_objects_get (pk : Z) : M Agent.t := λ w,
  match List.find (λ a, Z.eqb (Agent.pk a) pk) (agents w) with
  | Some a => (Ok a, w)
  | None => (Raise (DoesNotExist "Agent"), w)
  end.

(** [Script.objects.get(pk=pk)] *)
Definition Script_objects_get (pk : Z) : M Script.t := λ w,
  match List.find (λ s, Z.eqb (Script.pk s) pk) (scripts w) with
  | Some s => (Ok s, w)
  | None => (Raise (DoesNotExist "Script"), w)
  end.

(** [AgentOutage.objects.get(pk=pk)] *)
Definition AgentOutage_objects_get (pk : Z) : M AgentOutage.t := λ w,
  match List.find (λ o, Z.eqb (AgentOutage.pk o) pk) (outages w) with
  | Some o => (Ok o, w)
  | None => (Raise (DoesNotExist "AgentOutage"), w)
  end.

(** [CoreSettings.objects.first()] *)
Definition CoreSettings_objects_first : M (option CoreSettings.t) :=
  gets (λ w, head (coresettings w)).

(** The filter [action_type="agentupdate", status="pending"] on the pending
    actions of an agent. *)
Definition is_pending_agentupdate (agent : Z) (a : PendingAction.t) : bool :=
  Z.eqb (PendingAction.agent a) agent
  && String.eqb (PendingAction.action_type a) "agentupdate"
  && String.eqb (PendingAction.status a) "pending".

Definition pending_agentupdates (agent : Z) (w : world) : list PendingAction.t :=
  List.filter (is_pending_agentupdate agent) (pendingactions w).

Definition set_pendingactions (l : list PendingAction.t) (seq : Z) (w : world) : world :=
  {| agents := agents w; pendingactions := l; pendingaction_seq := seq;
     outages := outages w; outage_seq := outage_seq w; scripts := scripts w;
     coresettings := coresettings w; trace := trace w |}.

(** [action.delete()] *)
Definition PendingAction_delete (action : PendingAction.t) : M unit :=
  modify (λ w,
    set_pendingactions
      (List.filter (λ a, negb (Z.eqb (PendingAction.pk a) (PendingAction.pk action)))
         (pendingactions w))
      (pendingaction_seq w) w).

(** [PendingAction.objects.create(agent=..., action_type=..., details=...)]:
    the new row takes the next primary key and the default status. *)
Definition PendingAction_objects_create
    (agent : Z) (action_type : string) (details : gmap string pyval) : M unit :=
  modify (λ w,
    set_pendingactions
      (pendingactions w ++
         [ {| PendingAction.pk := pendingaction_seq w;
              PendingAction.agent := agent;
              PendingAction.action_type := action_type;
              PendingAction.status := PendingAction.default_status;
              PendingAction.details := details |} ])
      (pendingaction_seq w + 1)%Z w).

Definition set_outages (l : list AgentOutage.t) (seq : Z) (w : world) : world :=
  {| agents := agents w; pendingactions := pendingactions w;
     pendingaction_seq := pendingaction_seq w;
     outages := l; outage_seq := seq; scripts := scripts w;
     coresettings := coresettings w; trace := trace w |}.

(** [AgentOutage.objects.filter(agent=agent)] *)
Definition outages_of (agent : Z) (w : world) : list AgentOutage.t :=
  List.filter (λ o, Z.eqb (AgentOutage.agent o) agent) (outages w).

(** [outage = AgentOutage(agent=agent); outage.save()]; gives back the
    saved object, which now has its primary key. *)
Definition AgentOutage_create (agent : Z) : M AgentOutage.t := λ w,
  let o := AgentOutage.new (outage_seq w) agent in
  (Ok o, set_outages (outages w ++ [o]) (outage_seq w + 1)%Z w).

Definition set_field (f : outage_field) (v : bool) (o : AgentOutage.t) : AgentOutage.t :=
  let '(AgentOutage.Build_t pk agent rt oe os re rs) := o in
  match f with
  | f_outage_email_sent => AgentOutage.Build_t pk agent rt v os re rs
  | f_outage_sms_sent => AgentOutage.Build_t pk agent rt oe v re rs
  | f_recovery_email_sent => AgentOutage.Build_t pk agent rt oe os v rs
  | f_recovery_sms_sent => AgentOutage.Build_t pk agent rt oe os re v
  end.

Definition get_field (f : outage_field) (o : AgentOutage.t) : bool :=
  match f with
  | f_outage_email_sent => AgentOutage.outage_email_sent o
  | f_outage_sms_sent => AgentOutage.outage_sms_sent o
  | f_recovery_email_sent => AgentOutage.recovery_email_sent o
  | f_recovery_sms_sent => AgentOutage.recovery_sms_sent o
  end.

(** [outage.save(update_fields=[f])]: the row with the object's primary key
    gets the object's value of [f]; no other column is written. *)
Definition AgentOutage_save (outage : AgentOutage.t) (f : outage_field) : M unit :=
  modify (λ w,
    set_outages
      (List.map
         (λ row,
            if Z.eqb (AgentOutage.pk row) (AgentOutage.pk outage)
            then set_field f (get_field f outage) row
            else row)
         (outages w))
      (outage_seq w) w).

(** ** The tasks *)

Section Tasks.

Variable settings : Settings.
Variable env : Env.

(** [asyncio.run(agent.nats_cmd(data, wait=False))]: sent, not awaited. *)
Definition nats_cmd_nowait (agent : Agent.t) (data : gmap string pyval) : M unit :=
  emit (NatsCmd (Agent.pk agent) data false None).

(** [asyncio.run(agent.nats_cmd(data, timeout=t))]: the reply, or the
    string "timeout". *)
Definition nats_cmd (agent : Agent.t) (data : gmap string pyval) (timeout : Z) : M pyval :=
  emit (NatsCmd (Agent.pk agent) data true (Some timeout));;
  mret (nats_reply env (Agent.pk agent) data).

Definition agent_update (pk : Z) : M string :=
  agent ← Agent_objects_get pk;
  (* skip if we can't determine the arch *)
  match Agent.arch agent with
  | None =>
      logger WARNING
        ("Unable to determine arch on " +:+ Agent.hostname agent +:+ ". Skipping.");;
      mret "noarch"
  | Some _ =>
      let version := LATEST_AGENT_VER settings in
      let url := Agent.winagent_dl agent in
      let inno := Agent.win_inno_exe agent in
      let details : gmap string pyval :=
        {[ "url" := PStr url; "version" := PStr version; "inno" := PStr inno ]} in
      if Agent.has_nats agent then
        v ← lift (pyver_parse (Agent.version agent));
        v_legacy ← lift (pyver_parse "1.1.11");
        if pyver.leb v v_legacy then
          pending ← gets (pending_agentupdates (Agent.pk agent));
          match last pending with
          | Some action =>
              recorded ← lift (getitem (PendingAction.details action) "version");
              v_recorded ← lift (pyver_parse_val recorded);
              v_target ← lift (pyver_parse version);
              if pyver.ltb v_recorded v_target then
                PendingAction_delete action;;
                PendingAction_objects_create (Agent.pk agent) "agentupdate" details;;
                mret "created"
              else
                mret "pending"
          | None =>
              PendingAction_objects_create (Agent.pk agent) "agentupdate" details;;
              mret "created"
          end
        else
          let nats_data : gmap string pyval :=
            {[ "func" := PStr "agentupdate"; "payload" := PDict details ]} in
          nats_cmd_nowait agent nats_data;;
          mret "created"
      else
        mret "not supported"
  end.

(** The agents of a queryset whose version is below [version]; a version
    that does not parse raises. *)
Fixpoint older_than (version : string) (q : list Agent.t) : M (list Z) :=
  match q with
  | [] => mret []
  | i :: q' =>
      v ← lift (pyver_parse (Agent.version i));
      t ← lift (pyver_parse version);
      rest ← older_than version q';
      mret (if pyver.ltb v t then Agent.pk i :: rest else rest)
  end.

Definition send_agent_update_task (pks : list Z) (version : string) : M unit :=
  q ← gets (λ w, List.filter (λ a, bool_decide (Agent.pk a ∈ pks)) (agents w));
  agents ← older_than version q;
  for_each agents (λ pk, agent_update pk;; mret tt).

Definition auto_self_agent_update_task : M unit :=
  core ← CoreSettings_objects_first;
  match core with
  | None => raise AttributeError
  | Some core =>
      if negb (CoreSettings.agent_auto_update core) then
        logger INFO "Agent auto update is disabled. Skipping."
      else
        q ← gets agents;
        pks ← older_than (LATEST_AGENT_VER settings) q;
        for_each pks (λ pk, agent_update pk;; mret tt)
  end.

(** *** Uninstall over the salt API *)

(** [requests.post(url, json=body, timeout=t)]: the post is issued, and the
    environment answers it or makes it raise. *)
Definition requests_post (url : string) (body : pyval) (timeout : Z) : M Response := λ w,
  let w' := set_trace (trace w ++ [HttpPost url body timeout]) w in
  match http_post env (posts (trace w)) with
  | Some r => (Ok r, w')
  | None => (Raise ConnectionError, w')
  end.

(** [r.json()] *)
Definition Response_json (r : Response) : result pyval :=
  match json_body r with
  | Some j => Ok j
  | None => Raise JSONDecodeError
  end.

(** [r.json()["return"][0][salt_id]] *)
Definition per_agent_result (r : Response) (salt_id : string) : result pyval :=
  j ← Response_json r;
  j_return ← subscript_key j "return";
  j_first ← subscript_index j_return 0;
  subscript_key j_first salt_id.

Definition salt_run_url : string := "http://" +:+ SALT_HOST settings +:+ ":8123/run".

Definition uninstall_request (salt_id : string) : pyval :=
  PList [ PDict {[ "client" := PStr "local";
                   "tgt" := PStr salt_id;
                   "fun" := PStr "win_agent.uninstall_agent";
                   "timeout" := PInt 8;
                   "username" := PStr (SALT_USERNAME settings);
                   "password" := PStr (SALT_PASSWORD settings);
                   "eauth" := PStr "pam" ]} ].

Definition key_delete_request (salt_id : string) : pyval :=
  PList [ PDict {[ "client" := PStr "wheel";
                   "fun" := PStr "key.delete";
                   "match" := PStr salt_id;
                   "username" := PStr (SALT_USERNAME settings);
                   "password" := PStr (SALT_PASSWORD settings);
                   "eauth" := PStr "pam" ]} ].

(** The [try] block of one iteration: [Some ret] when it ran through (the
    [else] branch is taken), [None] when anything in it raised. *)
Definition uninstall_attempt (salt_id : string) : M (option pyval) :=
  try_except
    (r ← requests_post salt_run_url (uninstall_request salt_id) 10;
     ret ← lift (per_agent_result r salt_id);
     mret (Some ret))
    (λ _, mret None).

(** The counter after one iteration: [attempts += 1] in the [except] branch
    and when [ret != "ok"], [attempts = 0] otherwise. *)
Definition count_attempt (attempts : Z) (outcome : option pyval) : Z :=
  match outcome with
  | None => attempts + 1
  | Some ret => if negb (eq_str ret "ok") then attempts + 1 else 0
  end.

(** The [while 1] loop, from the state in which the counter is [attempts];
    it ends with the counter and the [error] flag.  Each further iteration
    brings the counter closer to 10. *)
Equations? uninstall_loop (salt_id : string) (attempts : Z) : M (Z * bool)
  by wf (Z.to_nat (10 - attempts)) lt :=
uninstall_loop salt_id attempts :=
  outcome ← uninstall_attempt salt_id;
  let attempts' := count_attempt attempts outcome in
  if decide (attempts' >= 10)%Z then mret (attempts', true)
  else if decide (attempts' = 0)%Z then mret (attempts', false)
  else uninstall_loop salt_id attempts'.
Proof.
  subst attempts'. unfold count_attempt in *.
  destruct outcome as [ret|]; [destruct (negb (eq_str ret "ok"))|]; lia.
Qed.

Definition uninstall_agent_task (salt_id : string) (has_nats : bool) : M string :=
  loop_end ← (if negb has_nats then uninstall_loop salt_id 0
              else mret (0%Z, false));
  let error := snd (loop_end : Z * bool) in
  (if error then logger ERROR (salt_id +:+ " uninstall failed")
   else logger INFO (salt_id +:+ " was successfully uninstalled"));;
  try_except
    (requests_post salt_run_url (key_delete_request salt_id) 30;; mret tt)
    (λ _, logger ERROR (salt_id +:+ " unable to remove salt-key"));;
  mret "ok".

(** *** Outage notification jobs *)

(** [random.randint(a, b)], within [a..b] whatever the seed. *)
Definition random_randint (a b : Z) : Z := (a + random_seed env `mod` (b - a + 1))%Z.

Definition sleep (seconds : Z) : M unit := emit (Sleep seconds).

(** [outage.send_...()]: the notifier is called, and returns or raises. *)
Definition call_notifier (n : notifier) (outage : AgentOutage.t) : M unit :=
  emit (Notify n (AgentOutage.pk outage));;
  if notifier_returns env n (AgentOutage.pk outage) then mret tt
  else raise NotifierError.

Definition agent_outage_email_task (pk : Z) : M unit :=
  sleep (random_randint 1 15);;
  outage ← AgentOutage_objects_get pk;
  call_notifier send_outage_email outage;;
  let outage := set_field f_outage_email_sent true outage in
  AgentOutage_save outage f_outage_email_sent.

Definition agent_recovery_email_task (pk : Z) : M unit :=
  sleep (random_randint 1 15);;
  outage ← AgentOutage_objects_get pk;
  call_notifier send_recovery_email outage;;
  let outage := set_field f_recovery_email_sent true outage in
  AgentOutage_save outage f_recovery_email_sent.

Definition agent_outage_sms_task (pk : Z) : M unit :=
  sleep (random_randint 1 3);;
  outage ← AgentOutage_objects_get pk;
  call_notifier send_outage_sms outage;;
  let outage := set_field f_outage_sms_sent true outage in
  AgentOutage_save outage f_outage_sms_sent.

Definition agent_recovery_sms_task (pk : Z) : M unit :=
  sleep (random_randint 1 3);;
  outage ← AgentOutage_objects_get pk;
  call_notifier send_recovery_sms outage;;
  let outage := set_field f_recovery_sms_sent true outage in
  AgentOutage_save outage f_recovery_sms_sent.

(** *** The outage sweep *)

(** [task.delay(pk=pk)]: the job is handed to the queue. *)
Definition delay (j : job) (pk : Z) : M unit := emit (Delay j pk).

(** [outages and outages.last().is_active] *)
Definition last_is_active (outages : list AgentOutage.t) : bool :=
  match last outages with
  | Some o => AgentOutage.is_active o
  | None => false
  end.

(** The body of the loop over the agents. *)
Definition agent_outages_step (agent : Agent.t) : M unit :=
  if Agent.overdue_email_alert agent || Agent.overdue_text_alert agent then
    if String.eqb (Agent.status agent) "overdue" then
      outages ← gets (outages_of (Agent.pk agent));
      if last_is_active outages then mret tt (* continue *)
      else
        outage ← AgentOutage_create (Agent.pk agent);
        (if Agent.overdue_email_alert agent && negb (Agent.maintenance_mode agent)
         then delay agent_outage_email_task_job (AgentOutage.pk outage)
         else mret tt);;
        (if Agent.overdue_text_alert agent && negb (Agent.maintenance_mode agent)
         then delay agent_outage_sms_task_job (AgentOutage.pk outage)
         else mret tt)
    else mret tt
  else mret tt.

Definition agent_outages_task : M unit :=
  agents ← gets agents;
  for_each agents agent_outages_step.

(** *** The script-run notifier *)

Definition nl : string := String (ascii_of_nat 10) EmptyString.

Definition smtp (a : smtp_action) : M unit :=
  emit (Smtp a);;
  if smtp_ok env a then mret tt else raise SMTPException.

Definition str_format_4f (v : pyval) : result string :=
  match format_4f env v with
  | Some s => Ok s
  | None => Raise TypeError
  end.

Definition exn_name (e : exn) : string :=
  match e with
  | DoesNotExist m => m +:+ " matching query does not exist."
  | InvalidVersion s => "Invalid version: " +:+ s
  | KeyError k => k
  | IndexError => "IndexError"
  | TypeError => "TypeError"
  | AttributeError => "AttributeError"
  | ConnectionError => "ConnectionError"
  | JSONDecodeError => "JSONDecodeError"
  | NotifierError => "NotifierError"
  | SMTPException => "SMTPException"
  | ValueError =>
      "Header values may not contain linefeed or carriage return characters"
  end.

Definition run_script_email_results_task
    (agentpk scriptpk nats_timeout : Z) (nats_data : gmap string pyval)
    (emails : list string) : M unit :=
  agent ← Agent_objects_get agentpk;
  script ← Script_objects_get scriptpk;
  let nats_data := <["func" := PStr "runscriptfull"]> nats_data in
  r ← nats_cmd agent nats_data nats_timeout;
  if eq_str r "timeout" then
    logger ERROR (Agent.hostname agent +:+ " timed out running script.")
  else
    CORE ← CoreSettings_objects_first;
    let subject := Agent.hostname agent +:+ " " +:+ Script.name script +:+ " Results" in
    execution_time ← lift (subscript_key r "execution_time");
    exec_time ← lift (str_format_4f execution_time);
    retcode ← lift (subscript_key r "retcode");
    stdout ← lift (subscript_key r "stdout");
    stderr ← lift (subscript_key r "stderr");
    let body :=
      subject +:+ nl +:+ "Return code: " +:+ py_str env retcode
        +:+ nl +:+ "Execution time: " +:+ exec_time +:+ " seconds"
        +:+ nl +:+ "Stdout: " +:+ py_str env stdout
        +:+ nl +:+ "Stderr: " +:+ py_str env stderr in
    lift (set_header subject);;
    match CORE with
    | None => raise AttributeError
    | Some CORE =>
        let from := CoreSettings.smtp_from_email CORE in
        lift (set_header from);;
        let to :=
          match emails with
          | _ :: _ => join ", " emails
          | [] => join ", " (CoreSettings.email_alert_recipients CORE)
          end in
        lift (set_header to);;
        let send := smtp (SmtpSendMessage subject from to body) in
        try_except
          (smtp (SmtpConnect (CoreSettings.smtp_host CORE)
                   (CoreSettings.smtp_port CORE) 20);;
           if CoreSettings.smtp_requires_auth CORE then
             smtp SmtpEhlo;;
             smtp SmtpStarttls;;
             smtp (SmtpLogin (CoreSettings.smtp_host_user CORE)
                     (CoreSettings.smtp_host_password CORE));;
             send;;
             smtp SmtpQuit
           else
             send;;
             smtp SmtpQuit)
          (λ e, logger ERROR (exn_name e))
    end.

End Tasks.

(** ** Vocabulary of the statements *)

(** [agent.pendingactions]: the actions that belong to an agent. *)
Definition Agent_pendingactions (agent : Z) (w : world) : list PendingAction.t :=
  List.filter (λ a, Z.eqb (PendingAction.agent a) agent) (pendingactions w).

(** The rows other than [action] (rows are told apart by primary key). *)
Definition other_than (action : PendingAction.t) (a : PendingAction.t) : bool :=
  negb (Z.eqb (PendingAction.pk a) (PendingAction.pk action)).

Section Decision.

Variable settings : Settings.

(** The details of an update to the configured latest version. *)
Definition update_details (agent : Agent.t) : gmap string pyval :=
  {[ "url" := PStr (Agent.winagent_dl agent);
     "version" := PStr (LATEST_AGENT_VER settings);
     "inno" := PStr (Agent.win_inno_exe agent) ]}.

(** The action [agent_update] creates for [agent] in the world [w]. *)
Definition new_action (agent : Agent.t) (w : world) : PendingAction.t :=
  {| PendingAction.pk := pendingaction_seq w;
     PendingAction.agent := Agent.pk agent;
     PendingAction.action_type := "agentupdate";
     PendingAction.status := "pending";
     PendingAction.details := update_details agent |}.

(** The command [agent_update] pushes to [agent]. *)
Definition update_command (agent : Agent.t) : event :=
  NatsCmd (Agent.pk agent)
    {[ "func" := PStr "agentupdate"; "payload" := PDict (update_details agent) ]}
    false None.

(** The cases of the update decision for an agent of the registry: how the
    call ends and the world it leaves, under the conditions of each case. *)
Inductive decision (agent : Agent.t) (w : world) : result string * world → Prop :=
| d_noarch :
    Agent.arch agent = None →
    decision agent w
      (Ok "noarch",
       set_trace
         (trace w ++
            [Log WARNING
               ("Unable to determine arch on " +:+ Agent.hostname agent
                  +:+ ". Skipping.")])
         w)
| d_not_supported :
    Agent.arch agent ≠ None → Agent.has_nats agent = false →
    decision agent w (Ok "not supported", w)
| d_bad_version :
    Agent.arch agent ≠ None → Agent.has_nats agent = true →
    pyver.parse (Agent.version agent) = None →
    decision agent w (Raise (InvalidVersion (Agent.version agent)), w)
| d_modern v :
    Agent.arch agent ≠ None → Agent.has_nats agent = true →
    pyver.parse (Agent.version agent) = Some v →
    pyver.leb v [1; 1; 11]%N = false →
    decision agent w
      (Ok "created", set_trace (trace w ++ [update_command agent]) w)
| d_first v :
    Agent.arch agent ≠ None → Agent.has_nats agent = true →
    pyver.parse (Agent.version agent) = Some v →
    pyver.leb v [1; 1; 11]%N = true →
    last (pending_agentupdates (Agent.pk agent) w) = None →
    decision agent w
      (Ok "created",
       set_pendingactions (pendingactions w ++ [new_action agent w])
         (pendingaction_seq w + 1)%Z w)
| d_no_recorded_version v action :
    Agent.arch agent ≠ None → Agent.has_nats agent = true →
    pyver.parse (Agent.version agent) = Some v →
    pyver.leb v [1; 1; 11]%N = true →
    last (pending_agentupdates (Agent.pk agent) w) = Some action →
    PendingAction.details action !! "version" = None →
    decision agent w (Raise (KeyError "version"), w)
| d_bad_recorded_version v action recorded e :
    Agent.arch agent ≠ None → Agent.has_nats agent = true →
    pyver.parse (Agent.version agent) = Some v →
    pyver.leb v [1; 1; 11]%N = true →
    last (pending_agentupdates (Agent.pk agent) w) = Some action →
    PendingAction.details action !! "version" = Some recorded →
    pyver_parse_val recorded = Raise e →
    decision agent w (Raise e, w)
| d_bad_target v action recorded v_recorded :
    Agent.arch agent ≠ None → Agent.has_nats agent = true →
    pyver.parse (Agent.version agent) = Some v →
    pyver.leb v [1; 1; 11]%N = true →
    last (pending_agentupdates (Agent.pk agent) w) = Some action →
    PendingAction.details action !! "version" = Some recorded →
    pyver_parse_val recorded = Ok v_recorded →
    pyver.parse (LATEST_AGENT_VER settings) = None →
    decision agent w (Raise (InvalidVersion (LATEST_AGENT_VER settings)), w)
| d_pending v action recorded v_recorded v_target :
    Agent.arch agent ≠ None → Agent.has_nats agent = true →
    pyver.parse (Agent.version agent) = Some v →
    pyver.leb v [1; 1; 11]%N = true →
    last (pending_agentupdates (Agent.pk agent) w) = Some action →
    PendingAction.details action !! "version" = Some recorded →
    pyver_parse_val recorded = Ok v_recorded →
    pyver.parse (LATEST_AGENT_VER settings) = Some v_target →
    pyver.ltb v_recorded v_target = false →
    decision agent w (Ok "pending", w)
| d_replace v action recorded v_recorded v_target :
    Agent.arch agent ≠ None → Agent.has_nats agent = true →
    pyver.parse (Agent.version agent) = Some v →
    pyver.leb v [1; 1; 11]%N = true →
    last (pending_agentupdates (Agent.pk agent) w) = Some action →
    PendingAction.details action !! "version" = Some recorded →
    pyver_parse_val recorded = Ok v_recorded →
    pyver.parse (LATEST_AGENT_VER settings) = Some v_target →
    pyver.ltb v_recorded v_target = true →
    decision agent w
      (Ok "created",
       set_pendingactions
         (List.filter (other_than action) (pendingactions w) ++ [new_action agent w])
         (pendingaction_seq w + 1)%Z w).

End Decision.

(** ** Sample registries *)

Definition sample_settings : Settings :=
  {| LATEST_AGENT_VER := "1.2.0"; SALT_HOST := "127.0.0.1";
     SALT_USERNAME := "saltapi"; SALT_PASSWORD := "secret" |}.

(** Settings whose latest agent version is above 1.2.0. *)
Definition newer_settings : Settings :=
  {| LATEST_AGENT_VER := "1.3.0"; SALT_HOST := "127.0.0.1";
     SALT_USERNAME := "saltapi"; SALT_PASSWORD := "secret" |}.

Definition sample_agent (version : string) (arch : option string) : Agent.t :=
  {| Agent.pk := 1; Agent.hostname := "DESKTOP-1"; Agent.version := version;
     Agent.arch := arch; Agent.has_nats := true; Agent.status := "overdue";
     Agent.overdue_email_alert := true; Agent.overdue_text_alert := false;
     Agent.maintenance_mode := false;
     Agent.winagent_dl := "https://example.com/winagent-v1.2.0.exe";
     Agent.win_inno_exe := "winagent-v1.2.0.exe" |}.

(** An agent-update action of agent 1 that awaits pickup. *)
Definition sample_action (pk : Z) (version : string) : PendingAction.t :=
  {| PendingAction.pk := pk; PendingAction.agent := 1;
     PendingAction.action_type := "agentupdate";
     PendingAction.status := "pending";
     PendingAction.details :=
       {[ "url" := PStr "https://example.com/winagent.exe";
          "version" := PStr version;
          "inno" := PStr "winagent.exe" ]} |}.

Definition sample_outage (pk : Z) (recovery_time : option Z) : AgentOutage.t :=
  {| AgentOutage.pk := pk; AgentOutage.agent := 1;
     AgentOutage.recovery_time := recovery_time;
     AgentOutage.outage_email_sent := true; AgentOutage.outage_sms_sent := false;
     AgentOutage.recovery_email_sent := false;
     AgentOutage.recovery_sms_sent := false |}.

Definition sample_world (agent : Agent.t) (actions : list PendingAction.t)
    (outages : list AgentOutage.t) : world :=
  {| agents := [agent]; pendingactions := actions; pendingaction_seq := 10;
     outages := outages; outage_seq := 10;
     scripts := [ {| Script.pk := 1; Script.name := "cleanup" |} ];
     coresettings := []; trace := [] |}.

Section UninstallVocabulary.

Variable settings : Settings.
Variable env : Env.

(** Whether the [n]-th post of the run, as an uninstall call for [salt_id],
    counts as a failure: the transport call raises, or it returns and the
    per-agent result is not the success sentinel. *)
Definition attempt_fails (salt_id : string) (n : nat) : bool :=
  match http_post env n with
  | None => true
  | Some r =>
      match per_agent_result r salt_id with
      | Raise _ => true
      | Ok ret => negb (eq_str ret "ok")
      end
  end.

Definition uninstall_post (salt_id : string) : event :=
  HttpPost (salt_run_url settings) (uninstall_request settings salt_id) 10.

Definition key_delete_post (salt_id : string) : event :=
  HttpPost (salt_run_url settings) (key_delete_request settings salt_id) 30.

(** The key-delete step when it is the [n]-th post of the run: the post, and
    the error logged if it raises. *)
Definition key_delete_step (salt_id : string) (n : nat) : list event :=
  key_delete_post salt_id ::
  match http_post env n with
  | Some _ => []
  | None => [Log ERROR (salt_id +:+ " unable to remove salt-key")]
  end.

Definition uninstall_failed_log (salt_id : string) : event :=
  Log ERROR (salt_id +:+ " uninstall failed").

Definition uninstall_success_log (salt_id : string) : event :=
  Log INFO (salt_id +:+ " was successfully uninstalled").

End UninstallVocabulary.

(** A salt API that answers every post with the given per-agent result for
    minion [m1], from the [first_ok]-th post on with "ok". *)
Definition sample_env (first_ok : nat) : Env :=
  {| nats_reply := λ _ _, PStr "timeout";
     http_post := λ n,
       Some {| json_body :=
                 Some (PDict {[ "return" :=
                   PList [ PDict {[ "m1" :=
                     if (first_ok <=? n)%nat then PStr "ok"
                     else PStr "minion did not return" ]} ] ]}) |};
     notifier_returns := λ _ _, true;
     smtp_ok := λ _, true;
     random_seed := 4;
     format_4f := λ _, Some "0.0000";
     py_str := λ _, "" |}.

(** A salt API that cannot be reached. *)
Definition unreachable_env : Env :=
  {| nats_reply := λ _ _, PStr "timeout";
     http_post := λ _, None;
     notifier_returns := λ _ _, false;
     smtp_ok := λ _, false;
     random_seed := 0;
     format_4f := λ _, None;
     py_str := λ _, "" |}.

(** The agents the sweep acts on: an alert is enabled and the status is
    overdue. *)
Definition alerting_overdue (agent : Agent.t) : bool :=
  (Agent.overdue_email_alert agent || Agent.overdue_text_alert agent)
  && String.eqb (Agent.status agent) "overdue".

(** The jobs the sweep schedules for a new outage [pk] of [agent]. *)
Definition outage_jobs (agent : Agent.t) (pk : Z) : list event :=
  (if Agent.overdue_email_alert agent && negb (Agent.maintenance_mode agent)
   then [Delay agent_outage_email_task_job pk] else [])
  ++ (if Agent.overdue_text_alert agent && negb (Agent.maintenance_mode agent)
      then [Delay agent_outage_sms_task_job pk] else []).

(** The world after the sweep recorded a new outage of [agent] and scheduled
    its jobs. *)
Definition outage_recorded (agent : Agent.t) (w : world) : world :=
  set_trace (trace w ++ outage_jobs agent (outage_seq w))
    (set_outages
       (outages w ++ [AgentOutage.new (outage_seq w) (Agent.pk agent)])
       (outage_seq w + 1)%Z w).

(** The sweep has nothing to do for [agent]: it is not one the sweep acts
    on, or its latest outage is active. *)
Definition tracked (agent : Agent.t) (w : world) : Prop :=
  alerting_overdue agent = true →
  last_is_active (outages_of (Agent.pk agent) w) = true.

(** Two rows that differ at most in the column [f]. *)
Definition same_except (f : outage_field) (row row' : AgentOutage.t) : Prop :=
  AgentOutage.pk row' = AgentOutage.pk row
  ∧ AgentOutage.agent row' = AgentOutage.agent row
  ∧ AgentOutage.recovery_time row' = AgentOutage.recovery_time row
  ∧ ∀ g : outage_field, g ≠ f → get_field g row' = get_field g row.

(** The delivery-confirmation flag of each notifier, and the upper bound of
    the delay before it is called. *)
Definition confirmation_flag (n : notifier) : outage_field :=
  match n with
  | send_outage_email => f_outage_email_sent
  | send_recovery_email => f_recovery_email_sent
  | send_outage_sms => f_outage_sms_sent
  | send_recovery_sms => f_recovery_sms_sent
  end.

Definition jitter (n : notifier) : Z :=
  match n with
  | send_outage_email | send_recovery_email => 15
  | send_outage_sms | send_recovery_sms => 3
  end.

(** The job that calls each notifier. *)
Definition notification_task (env : Env) (n : notifier) : Z → M unit :=
  match n with
  | send_outage_email => agent_outage_email_task env
  | send_recovery_email => agent_recovery_email_task env
  | send_outage_sms => agent_outage_sms_task env
  | send_recovery_sms => agent_recovery_sms_task env
  end.

(** The table after the row [pk] got its column [f] set. *)
Definition confirmed (f : outage_field) (pk : Z) (rows : list AgentOutage.t)
  : list AgentOutage.t :=
  List.map
    (λ row, if Z.eqb (AgentOutage.pk row) pk then set_field f true row else row)
    rows.

(** ** The remaining tasks *)

Section HealthTasks.

Variable env : Env.

Definition _check_agent_service (pk : Z) : M unit :=
  agent ← Agent_objects_get pk;
  r ← nats_cmd env agent {[ "func" := PStr "ping" ]} 2;
  if eq_str r "pong" then
    logger INFO
      ("Detected crashed tacticalagent service on " +:+ Agent.hostname agent
         +:+ ", attempting recovery");;
    nats_cmd_nowait agent
      {[ "func" := PStr "recover";
         "payload" := PDict {[ "mode" := PStr "tacagent" ]} ]}
  else mret tt.

Definition _check_in_full (pk : Z) : M unit :=
  agent ← Agent_objects_get pk;
  nats_cmd_nowait agent {[ "func" := PStr "checkinfull" ]}.

(** The list [agents] of [check_in_task]: the keys of the agents whose
    version is at least 1.1.12.  (The task then hands the list to a thread
    pool that runs [_check_in_full] on each key; the pool is not modelled.) *)
Fixpoint check_in_agents (q : list Agent.t) : result (list Z) :=
  match q with
  | [] => mret []
  | i :: q' =>
      v ← pyver_parse (Agent.version i);
      v_min ← pyver_parse "1.1.12";
      rest ← check_in_agents q';
      mret (if pyver.leb v_min v then Agent.pk i :: rest else rest)
  end.

(** The list [agents] of [monitor_agents_task]: the keys of the push-capable
    agents that are not online.  (The thread pool that runs
    [_check_agent_service] on each key is not modelled.) *)
Definition monitor_agents (q : list Agent.t) : list Z :=
  List.map Agent.pk
    (List.filter
       (λ i, Agent.has_nats i && negb (String.eqb (Agent.status i) "online")) q).

(** The list [online] of [sync_sysinfo_task]. *)
Fixpoint sync_sysinfo_online (q : list Agent.t) : result (list Agent.t) :=
  match q with
  | [] => mret []
  | i :: q' =>
      v ← pyver_parse (Agent.version i);
      v_min ← pyver_parse "1.1.3";
      rest ← sync_sysinfo_online q';
      mret (if pyver.leb v_min v && String.eqb (Agent.status i) "online"
            then i :: rest else rest)
  end.

Definition sync_sysinfo_task : M unit :=
  agents ← gets agents;
  online ← lift (sync_sysinfo_online agents);
  for_each online (λ agent, nats_cmd_nowait agent {[ "func" := PStr "sync" ]}).

Definition install_salt_task (pk : Z) : M unit :=
  sleep 20;;
  agent ← Agent_objects_get pk;
  nats_cmd_nowait agent {[ "func" := PStr "installsalt" ]}.

End HealthTasks.

(** *** Module sync in batches *)

(** [range(0, n, step)] for a positive step: 0, step, 2 step, ... below n. *)
Definition range_step (n step : nat) : list nat :=
  List.map (λ k, k * step) (seq 0 ((n + step - 1) / step)).

(** [l[i:j]] for [i <= j]. *)
Definition slice {A} (l : list A) (i j : nat) : list A := take (j - i) (drop i l).

(** What [batch_sync_modules_task] calls, in order. *)
Inductive batch_step :=
| salt_batch_async (minions : list string) (func : string)
| batch_sleep (seconds : Z).

(** [chunks] of [batch_sync_modules_task]. *)
Definition chunks (online : list string) : list (list string) :=
  List.map (λ i, slice online i (i + 50)) (range_step (length online) 50).

(** The task as the sequence of its calls; [salt_id] reads the salt id of an
    agent (a field of the model class). *)
Definition batch_sync_modules_task (salt_id : Agent.t → string) (w : world)
  : list batch_step :=
  let online := List.map salt_id (agents w) in
  List.concat
    (List.map
       (λ chunk, [salt_batch_async chunk "saltutil.sync_modules"; batch_sleep 10])
       (chunks online)).

(** ** More vocabulary *)

(** The version of [agent] is a version and is not below [version]. *)
Definition not_below (version : string) (agent : Agent.t) : Prop :=
  ∃ v t : pyver.Version,
    pyver.parse (Agent.version agent) = Some v
    ∧ pyver.parse version = Some t
    ∧ pyver.ltb v t = false.

(** The test by which [agent_update] takes an agent for one of the modern
    generation: its version is a version and is not at or below 1.1.11. *)
Definition modern_generation (agent : Agent.t) : bool :=
  match pyver.parse (Agent.version agent) with
  | Some v => negb (pyver.leb v [1; 1; 11]%N)
  | None => false
  end.

(** The agents [sync_sysinfo_task] talks to: version at least 1.1.3 and
    status online. *)
Definition sync_eligible (agent : Agent.t) : bool :=
  match pyver.parse (Agent.version agent) with
  | Some v => pyver.leb [1; 1; 3]%N v && String.eqb (Agent.status agent) "online"
  | None => false
  end.

(** The world after a sweep that recorded the outages [created] and
    scheduled [jobs]. *)
Definition swept (w : world) (created : list AgentOutage.t) (jobs : list event)
  : world :=
  set_trace (trace w ++ jobs)
    (set_outages (outages w ++ created)
       (outage_seq w + Z.of_nat (length created))%Z w).

(** An outage record as the sweep creates it for [agent]. *)
Definition recorded_for (agent : Agent.t) (o : AgentOutage.t) : Prop :=
  o = AgentOutage.new (AgentOutage.pk o) (Agent.pk agent).

(** A job the sweep may schedule for the outage [pk] of [agent]: the agent is
    not in maintenance mode and has the alert of the job enabled. *)
Definition job_for (agent : Agent.t) (pk : Z) (e : event) : Prop :=
  Agent.maintenance_mode agent = false
  ∧ ((e = Delay agent_outage_email_task_job pk
      ∧ Agent.overdue_email_alert agent = true)
     ∨ (e = Delay agent_outage_sms_task_job pk
        ∧ Agent.overdue_text_alert agent = true)).

(** The SMTP steps that come before the report is handed over: the
    connection, and the upgrade and login when authentication is required. *)
Definition smtp_preamble (CORE : CoreSettings.t) : list smtp_action :=
  SmtpConnect (CoreSettings.smtp_host CORE) (CoreSettings.smtp_port CORE) 20
  :: (if CoreSettings.smtp_requires_auth CORE
      then [SmtpEhlo; SmtpStarttls;
            SmtpLogin (CoreSettings.smtp_host_user CORE)
              (CoreSettings.smtp_host_password CORE)]
      else []).

(** The SMTP steps of a report, in order. *)
Definition smtp_session (CORE : CoreSettings.t) (subject to body : string)
  : list smtp_action :=
  smtp_preamble CORE
  ++ [SmtpSendMessage subject (CoreSettings.smtp_from_email CORE) to body;
      SmtpQuit].

(** The steps taken of a list of steps: up to and including the first that
    fails. *)
Fixpoint taken (ok : smtp_action → bool) (steps : list smtp_action)
  : list smtp_action :=
  match steps with
  | [] => []
  | a :: steps' => a :: (if ok a then taken ok steps' else [])
  end.

(** The subject and the body of the report on a script run. *)
Definition report_subject (agent : Agent.t) (script : Script.t) : string :=
  Agent.hostname agent +:+ " " +:+ Script.name script +:+ " Results".

Definition report_body (env : Env) (subject exec_time : string)
    (retcode stdout stderr : pyval) : string :=
  subject +:+ nl +:+ "Return code: " +:+ py_str env retcode
    +:+ nl +:+ "Execution time: " +:+ exec_time +:+ " seconds"
    +:+ nl +:+ "Stdout: " +:+ py_str env stdout
    +:+ nl +:+ "Stderr: " +:+ py_str env stderr.

Definition report_to (CORE : CoreSettings.t) (emails : list string) : string :=
  match emails with
  | _ :: _ => join ", " emails
  | [] => join ", " (CoreSettings.email_alert_recipients CORE)
  end.

(** A registry with core settings. *)
Definition sample_core (requires_auth : bool) : CoreSettings.t :=
  {| CoreSettings.agent_auto_update := true;
     CoreSettings.smtp_from_email := "rmm@example.com";
     CoreSettings.email_alert_recipients := ["admin@example.com"];
     CoreSettings.smtp_host := "smtp.example.com";
     CoreSettings.smtp_port := 587;
     CoreSettings.smtp_requires_auth := requires_auth;
     CoreSettings.smtp_host_user := "rmm";
     CoreSettings.smtp_host_password := "secret" |}.

Definition with_core (core : CoreSettings.t) (w : world) : world :=
  {| agents := agents w; pendingactions := pendingactions w;
     pendingaction_seq := pendingaction_seq w; outages := outages w;
     outage_seq := outage_seq w; scripts := scripts w;
     coresettings := [core]; trace := trace w |}.

(** The result of a script run, as the agent replies. *)
Definition sample_script_result : gmap string pyval :=
  {[ "retcode" := PInt 0; "execution_time" := PInt 2;
     "stdout" := PStr "done"; "stderr" := PStr "" ]}.

(** An agent that replies to every call with a script result ("pong" to a
    ping when [alive]), and a mail server that accepts everything but, when
    [login_ok] is off, the login. *)
Definition sample_mail_env (alive login_ok : bool) : Env :=
  {| nats_reply := λ _ data,
       match data !! "func" with
       | Some (PStr "ping") => PStr (if alive then "pong" else "timeout")
       | _ => PDict sample_script_result
       end;
     http_post := λ _, None;
     notifier_returns := λ _ _, true;
     smtp_ok := λ a, match a with SmtpLogin _ _ => login_ok | _ => true end;
     random_seed := 0;
     format_4f := λ _, Some "2.0000";
     py_str := λ v, match v with PStr s => s | _ => "0" end |}.

(** * Properties *)

(** ** Running monadic code *)

Lemma run_bind {A B} (c : M A) (f : A → M B) (w : world) :
  (c ≫= f) w =
  match c w with
  | (Ok a, w') => f a w'
  | (Raise e, w') => (Raise e, w')
  end.
Proof. reflexivity. Qed.

Lemma run_lift_bind {A B} (r : result A) (f : A → M B) (w : world) :
  (lift r ≫= f) w =
  match r with
  | Ok a => f a w
  | Raise e => (Raise e, w)
  end.
Proof. rewrite run_bind. unfold lift. destruct r; reflexivity. Qed.

Lemma run_gets_bind {A B} (g : world → A) (f : A → M B) (w : world) :
  (gets g ≫= f) w = f (g w) w.
Proof. reflexivity. Qed.

Lemma Agent_objects_get_pk (pk : Z) (w w' : world) (a : Agent.t) :
  Agent_objects_get pk w = (Ok a, w') → Agent.pk a = pk ∧ w' = w.
Proof.
  unfold Agent_objects_get. intros H.
  destruct (List.find _ _) as [b|] eqn:Hfind; inversion H; subst.
  apply List.find_some in Hfind as [_ Hb]. split; [lia | reflexivity].
Qed.

(** ** The update decision *)

Lemma parse_legacy_bound : pyver.parse "1.1.11" = Some [1; 1; 11]%N.
Proof. reflexivity. Qed.

Section AgentUpdate.

Variable settings : Settings.

Lemma new_action_is_pending (agent : Agent.t) (w : world) :
  is_pending_agentupdate (Agent.pk agent) (new_action settings agent w) = true.
Proof. unfold is_pending_agentupdate. cbn. rewrite Z.eqb_refl. reflexivity. Qed.

(** Every call of [agent_update] on an agent of the registry falls in one of
    the cases of [decision]. *)
Lemma agent_update_decision (w : world) (pk : Z) (agent : Agent.t) :
  Agent_objects_get pk w = (Ok agent, w) →
  decision settings agent w (agent_update settings pk w).
Proof.
  intros Hget. unfold agent_update. rewrite run_bind, Hget.
  destruct (Agent.arch agent) as [arch|] eqn:Harch.
  2: { apply d_noarch. assumption. }
  assert (Agent.arch agent ≠ None) as Hknown by congruence.
  destruct (Agent.has_nats agent) eqn:Hnats.
  2: { apply d_not_supported; assumption. }
  rewrite run_lift_bind. unfold pyver_parse at 1.
  destruct (pyver.parse (Agent.version agent)) as [v|] eqn:Hv.
  2: { apply d_bad_version; assumption. }
  rewrite run_lift_bind. unfold pyver_parse at 1. rewrite parse_legacy_bound.
  destruct (pyver.leb v [1; 1; 11]%N) eqn:Hgen.
  2: { eapply d_modern; eassumption. }
  rewrite run_gets_bind.
  destruct (last (pending_agentupdates (Agent.pk agent) w)) as [action|] eqn:Hlast.
  2: { eapply d_first; eassumption. }
  rewrite run_lift_bind. unfold getitem.
  destruct (PendingAction.details action !! "version") as [recorded|] eqn:Hrec.
  2: { eapply d_no_recorded_version; eassumption. }
  rewrite run_lift_bind.
  destruct (pyver_parse_val recorded) as [v_recorded|e] eqn:Hs.
  2: { eapply d_bad_recorded_version; eassumption. }
  rewrite run_lift_bind. unfold pyver_parse.
  destruct (pyver.parse (LATEST_AGENT_VER settings)) as [v_target|] eqn:Ht.
  2: { eapply d_bad_target; eassumption. }
  destruct (pyver.ltb v_recorded v_target) eqn:Hlt.
  - exact (d_replace settings agent w v action recorded v_recorded v_target
             Hknown Hnats Hv Hgen Hlast Hrec Hs Ht Hlt).
  - eapply d_pending; eassumption.
Qed.

End AgentUpdate.

(** Filtering after removing rows: nothing is gained, and a row that was
    counted and is removed is lost. *)
Lemma filter_filter_length {A} (P Q : A → bool) (l : list A) :
  length (List.filter P (List.filter Q l)) ≤ length (List.filter P l).
Proof.
  induction l as [|a l IH]; cbn; [lia|].
  destruct (Q a), (P a) eqn:HP; cbn; rewrite ?HP; cbn; lia.
Qed.

Lemma filter_filter_drop {A} (P Q : A → bool) (l : list A) (x : A) :
  In x l → P x = true → Q x = false →
  length (List.filter P (List.filter Q l)) < length (List.filter P l).
Proof.
  intros Hin HP HQ. induction l as [|a l IH]; [destruct Hin|].
  destruct Hin as [->|Hin].
  - cbn. rewrite HQ, HP. cbn.
    pose proof (filter_filter_length P Q l). lia.
  - specialize (IH Hin). cbn.
    destruct (Q a), (P a) eqn:HPa; cbn; rewrite ?HPa; cbn; lia.
Qed.

Lemma last_Some_In {A} (l : list A) (x : A) : last l = Some x → In x l.
Proof.
  intros H. apply last_Some in H as [l' ->]. apply in_or_app. right. left. reflexivity.
Qed.

Lemma last_None_nil {A} (l : list A) : last l = None → l = [].
Proof. apply last_None. Qed.

Lemma other_than_self (action : PendingAction.t) : other_than action action = false.
Proof. unfold other_than. rewrite Z.eqb_refl. reflexivity. Qed.

Lemma Agent_pendingactions_pending (pk : Z) (w : world) :
  Agent_pendingactions pk w = [] → pending_agentupdates pk w = [].
Proof.
  unfold Agent_pendingactions, pending_agentupdates, is_pending_agentupdate.
  induction (pendingactions w) as [|a l IH]; cbn; [reflexivity|].
  destruct (PendingAction.agent a =? pk)%Z; cbn; [discriminate|assumption].
Qed.

Section AgentUpdateClaims.

Variable settings : Settings.

Ltac cases_of_decision Hget :=
  let D := fresh "D" in
  pose proof (agent_update_decision settings _ _ _ Hget) as D;
  inversion D; simplify_eq; try congruence.

(** C4: a push-capable agent of the modern generation with known
    architecture gets the [agentupdate] command pushed, with the url, the
    version and the installer, unawaited; the call returns [created] and the
    world differs from the one before by that command only, so no
    PendingAction is written. *)
Theorem agent_update_modern_dispatches
    (w : world) (pk : Z) (agent : Agent.t) (v : pyver.Version) :
  Agent_objects_get pk w = (Ok agent, w) →
  Agent.arch agent ≠ None →
  Agent.has_nats agent = true →
  pyver.parse (Agent.version agent) = Some v →
  pyver.leb v [1; 1; 11]%N = false →
  agent_update settings pk w =
    (Ok "created",
     set_trace
       (trace w ++
          [NatsCmd pk
             {[ "func" := PStr "agentupdate";
                "payload" :=
                  PDict {[ "url" := PStr (Agent.winagent_dl agent);
                           "version" := PStr (LATEST_AGENT_VER settings);
                           "inno" := PStr (Agent.win_inno_exe agent) ]} ]}
             false None])
       w)
  ∧ pendingactions (agent_update settings pk w).2 = pendingactions w.
Proof.
  intros Hget Harch Hnats Hv Hgen.
  destruct (Agent_objects_get_pk _ _ _ _ Hget) as [Hpk _].
  cases_of_decision Hget.
  split; reflexivity.
Qed.

(** The pending agent-update actions of an agent do not multiply: after a
    call there are as many as before, or one if there was none. *)
Lemma agent_update_pending_no_growth (w : world) (pk : Z) (agent : Agent.t) :
  Agent_objects_get pk w = (Ok agent, w) →
  length (pending_agentupdates pk (agent_update settings pk w).2)
  ≤ Nat.max 1 (length (pending_agentupdates pk w)).
Proof.
  intros Hget.
  destruct (Agent_objects_get_pk _ _ _ _ Hget) as [Hpk _].
  pose proof (agent_update_decision settings _ _ _ Hget) as D.
  inversion D; subst; cbn [snd]; try (unfold pending_agentupdates; cbn; lia).
  - match goal with H : last _ = None |- _ => apply last_None_nil in H; rename H into Hnil end.
    unfold pending_agentupdates in *. cbn [pendingactions set_pendingactions].
    rewrite List.filter_app, Hnil. cbn [List.filter].
    rewrite new_action_is_pending. cbn. lia.
  - match goal with H : last _ = Some _ |- _ => apply last_Some_In in H; rename H into Hin end.
    unfold pending_agentupdates in *. cbn [pendingactions set_pendingactions].
    rewrite List.filter_app. cbn [List.filter].
    rewrite new_action_is_pending, length_app. cbn [length].
    apply List.filter_In in Hin as [Hin HP].
    pose proof (filter_filter_drop _ (other_than action) _ _ Hin HP (other_than_self action)).
    lia.
Qed.

(** C2, amended: for a push-capable legacy agent with known architecture
    that has at most one pending agent-update action when [agent_update] is
    called, at most one exists after the call; and when that pending action
    records a version below the target, the call returns [created], that
    action is gone from the table, the new one is appended, and it is the
    one pending agent-update action of the agent. *)
Theorem agent_update_keeps_one_pending
    (w : world) (pk : Z) (agent : Agent.t) (v : pyver.Version) :
  Agent_objects_get pk w = (Ok agent, w) →
  Agent.arch agent ≠ None →
  Agent.has_nats agent = true →
  pyver.parse (Agent.version agent) = Some v →
  pyver.leb v [1; 1; 11]%N = true →
  length (pending_agentupdates pk w) ≤ 1 →
  length (pending_agentupdates pk (agent_update settings pk w).2) ≤ 1
  ∧ ∀ (action : PendingAction.t) (s : string) (v_recorded v_target : pyver.Version),
      In action (pending_agentupdates pk w) →
      PendingAction.details action !! "version" = Some (PStr s) →
      pyver.parse s = Some v_recorded →
      pyver.parse (LATEST_AGENT_VER settings) = Some v_target →
      pyver.ltb v_recorded v_target = true →
      agent_update settings pk w =
        (Ok "created",
         set_pendingactions
           (List.filter (other_than action) (pendingactions w)
              ++ [new_action settings agent w])
           (pendingaction_seq w + 1)%Z w)
      ∧ ¬ In action (List.filter (other_than action) (pendingactions w))
      ∧ pending_agentupdates pk (agent_update settings pk w).2
        = [new_action settings agent w].
Proof.
  intros Hget Harch Hnats Hv Hgen Hone. split.
  { pose proof (agent_update_pending_no_growth w pk agent Hget). lia. }
  intros action s v_recorded v_target Hin Hrec Hs Ht Hlt.
  destruct (Agent_objects_get_pk _ _ _ _ Hget) as [Hpk _].
  assert (pending_agentupdates pk w = [action]) as Hsingle.
  { destruct (pending_agentupdates pk w) as [|a [|b l]]; cbn in *; [tauto| |lia].
    destruct Hin as [->|[]]. reflexivity. }
  assert (pyver_parse_val (PStr s) = Ok v_recorded) as Hval.
  { cbn. unfold pyver_parse. rewrite Hs. reflexivity. }
  assert (List.filter (is_pending_agentupdate pk)
            (List.filter (other_than action) (pendingactions w)) = []) as Hgone.
  { apply length_zero_iff_nil.
    pose proof (filter_filter_drop (is_pending_agentupdate pk) (other_than action)
                  (pendingactions w) action) as Hdrop.
    unfold pending_agentupdates in Hsingle.
    assert (In action (List.filter (is_pending_agentupdate pk) (pendingactions w)))
      as Hin' by (rewrite Hsingle; left; reflexivity).
    apply List.filter_In in Hin' as [Hin' HP].
    specialize (Hdrop Hin' HP (other_than_self action)).
    rewrite Hsingle in Hdrop. cbn in Hdrop. lia. }
  pose proof (agent_update_decision settings _ _ _ Hget) as D.
  subst pk.
  inversion D;
    try match goal with
        | H : last (pending_agentupdates _ _) = _ |- _ =>
            rewrite Hsingle in H; cbn [last] in H
        end;
    simplify_eq; try congruence.
  split; [reflexivity|]. split.
  - rewrite List.filter_In, other_than_self. intros [_ ?]. discriminate.
  - cbn [snd]. unfold pending_agentupdates. cbn [pendingactions set_pendingactions].
    rewrite List.filter_app, Hgone. cbn [List.filter app].
    rewrite new_action_is_pending. reflexivity.
Qed.

(** C3, amended: for a push-capable legacy agent with known architecture
    whose latest pending agent-update action records a version that is not
    below the target, [agent_update] returns [pending] and leaves the world
    as it was: no PendingAction is created or deleted, nothing is sent. *)
Theorem agent_update_pending_no_write
    (w : world) (pk : Z) (agent : Agent.t) (v : pyver.Version)
    (action : PendingAction.t) (s : string) (v_recorded v_target : pyver.Version) :
  Agent_objects_get pk w = (Ok agent, w) →
  Agent.arch agent ≠ None →
  Agent.has_nats agent = true →
  pyver.parse (Agent.version agent) = Some v →
  pyver.leb v [1; 1; 11]%N = true →
  last (pending_agentupdates pk w) = Some action →
  PendingAction.details action !! "version" = Some (PStr s) →
  pyver.parse s = Some v_recorded →
  pyver.parse (LATEST_AGENT_VER settings) = Some v_target →
  pyver.ltb v_recorded v_target = false →
  agent_update settings pk w = (Ok "pending", w).
Proof.
  intros Hget Harch Hnats Hv Hgen Hlast Hrec Hs Ht Hge.
  destruct (Agent_objects_get_pk _ _ _ _ Hget) as [Hpk _].
  assert (pyver_parse_val (PStr s) = Ok v_recorded) as Hval.
  { cbn. unfold pyver_parse. rewrite Hs. reflexivity. }
  pose proof (agent_update_decision settings _ _ _ Hget) as D.
  subst pk. inversion D; simplify_eq; congruence.
Qed.

(** C1, amended: an agent of version 1.1.10, push-capable, with known
    architecture and no pending actions, updated to target 1.2.0 (the
    configured latest version, which is the target [agent_update] reads):
    the call returns [created], and afterwards the agent has exactly one
    PendingAction, of type agent-update, pending, whose details record
    version 1.2.0. *)
Theorem agent_update_created_scenario (w : world) (pk : Z) (agent : Agent.t) :
  LATEST_AGENT_VER settings = "1.2.0" →
  Agent_objects_get pk w = (Ok agent, w) →
  Agent.version agent = "1.1.10" →
  Agent.has_nats agent = true →
  Agent.arch agent ≠ None →
  Agent_pendingactions pk w = [] →
  (agent_update settings pk w).1 = Ok "created"
  ∧ ∃ action : PendingAction.t,
      Agent_pendingactions pk (agent_update settings pk w).2 = [action]
      ∧ PendingAction.action_type action = "agentupdate"
      ∧ PendingAction.status action = "pending"
      ∧ PendingAction.details action !! "version" = Some (PStr "1.2.0").
Proof.
  intros Hlatest Hget Hver Hnats Harch Hnone.
  destruct (Agent_objects_get_pk _ _ _ _ Hget) as [Hpk _].
  pose proof (Agent_pendingactions_pending _ _ Hnone) as Hnopending.
  pose proof (agent_update_decision settings _ _ _ Hget) as D.
  subst pk.
  inversion D;
    try match goal with
        | H : last (pending_agentupdates _ _) = _ |- _ =>
            rewrite Hnopending in H; cbn [last] in H
        end;
    try match goal with
        | H : pyver.parse (Agent.version agent) = _ |- _ =>
            rewrite Hver in H; vm_compute in H
        end;
    simplify_eq; try congruence.
  split; [reflexivity|].
  exists (new_action settings agent w). cbn [snd].
  unfold Agent_pendingactions in *. cbn [pendingactions set_pendingactions].
  rewrite List.filter_app, Hnone. cbn. rewrite Z.eqb_refl.
  repeat split. unfold update_details. rewrite Hlatest. reflexivity.
Qed.

End AgentUpdateClaims.

Lemma agent_update_modern_dispatches_witness :
  let agent := sample_agent "1.1.12" (Some "64") in
  let w := sample_world agent [] [] in
  agent_update sample_settings 1 w =
    (Ok "created",
     set_trace
       [NatsCmd 1
          {[ "func" := PStr "agentupdate";
             "payload" :=
               PDict {[ "url" := PStr "https://example.com/winagent-v1.2.0.exe";
                        "version" := PStr "1.2.0";
                        "inno" := PStr "winagent-v1.2.0.exe" ]} ]}
          false None]
       w)
  ∧ pendingactions (agent_update sample_settings 1 w).2 = [].
Proof.
  intros agent w.
  apply (agent_update_modern_dispatches sample_settings w 1 agent [1; 1; 12]%N);
    solve [reflexivity | discriminate].
Defined.

Lemma agent_update_keeps_one_pending_witness :
  let agent := sample_agent "1.1.10" (Some "64") in
  let w := sample_world agent [sample_action 3 "1.1.0"] [] in
  pending_agentupdates 1 (agent_update sample_settings 1 w).2
  = [new_action sample_settings agent w].
Proof.
  intros agent w.
  refine
    (proj2 (proj2
       (proj2
          (agent_update_keeps_one_pending sample_settings w 1 agent
             [1; 1; 10]%N _ _ _ _ _ _)
          (sample_action 3 "1.1.0") "1.1.0" [1; 1; 0]%N [1; 2; 0]%N _ _ _ _ _)));
    solve [reflexivity | discriminate | cbn; lia | left; reflexivity].
Defined.

(** Against C2 as stated: a push-capable legacy agent with known
    architecture that has two pending agent-update actions, both below the
    target.  Only the latest is deleted before the new one is created, so
    two pending agent-update actions remain, not one. *)
Lemma agent_update_two_pending_remain :
  let agent := sample_agent "1.1.10" (Some "64") in
  let w := sample_world agent [sample_action 3 "1.0.0"; sample_action 4 "1.1.0"] [] in
  Agent_objects_get 1 w = (Ok agent, w)
  ∧ Agent.arch agent = Some "64"
  ∧ Agent.has_nats agent = true
  ∧ pyver.parse (Agent.version agent) = Some [1; 1; 10]%N
  ∧ pyver.leb [1; 1; 10]%N [1; 1; 11]%N = true
  ∧ pending_agentupdates 1 w = [sample_action 3 "1.0.0"; sample_action 4 "1.1.0"]
  ∧ pyver.parse (LATEST_AGENT_VER sample_settings) = Some [1; 2; 0]%N
  ∧ pyver.ltb [1; 1; 0]%N [1; 2; 0]%N = true
  ∧ (agent_update sample_settings 1 w).1 = Ok "created"
  ∧ pending_agentupdates 1 (agent_update sample_settings 1 w).2
    = [sample_action 3 "1.0.0"; new_action sample_settings agent w]
  ∧ length (pending_agentupdates 1 (agent_update sample_settings 1 w).2) = 2.
Proof. repeat split; reflexivity. Qed.

Lemma agent_update_pending_no_write_witness :
  let agent := sample_agent "1.1.10" (Some "64") in
  let w := sample_world agent [sample_action 3 "1.2.0"] [] in
  agent_update sample_settings 1 w = (Ok "pending", w).
Proof.
  intros agent w.
  apply (agent_update_pending_no_write sample_settings w 1 agent [1; 1; 10]%N
           (sample_action 3 "1.2.0") "1.2.0" [1; 2; 0]%N [1; 2; 0]%N);
    solve [reflexivity | discriminate].
Defined.

(** Against C3 as stated, in two ways.  A push-capable legacy agent whose
    pending agent-update action records the target version, but whose
    architecture is unknown, gets [noarch], not [pending].  And with known
    architecture, when an older pending action records a version above the
    target and the latest one a version below it, the agent has a pending
    action that is not below the target, yet the latest is replaced and the
    call returns [created]. *)
Lemma agent_update_unknown_arch_not_pending :
  let agent := sample_agent "1.1.10" None in
  let w := sample_world agent [sample_action 3 "1.2.0"] [] in
  let agent' := sample_agent "1.1.10" (Some "64") in
  let w' := sample_world agent' [sample_action 3 "1.3.0"; sample_action 4 "1.1.0"] [] in
  (Agent_objects_get 1 w = (Ok agent, w)
   ∧ Agent.has_nats agent = true
   ∧ pyver.parse (Agent.version agent) = Some [1; 1; 10]%N
   ∧ pyver.leb [1; 1; 10]%N [1; 1; 11]%N = true
   ∧ pending_agentupdates 1 w = [sample_action 3 "1.2.0"]
   ∧ pyver.parse (LATEST_AGENT_VER sample_settings) = Some [1; 2; 0]%N
   ∧ pyver.ltb [1; 2; 0]%N [1; 2; 0]%N = false
   ∧ (agent_update sample_settings 1 w).1 = Ok "noarch"
   ∧ (agent_update sample_settings 1 w).1 ≠ Ok "pending")
  ∧ (Agent_objects_get 1 w' = (Ok agent', w')
     ∧ pending_agentupdates 1 w' = [sample_action 3 "1.3.0"; sample_action 4 "1.1.0"]
     ∧ pyver.ltb [1; 3; 0]%N [1; 2; 0]%N = false
     ∧ (agent_update sample_settings 1 w').1 = Ok "created"
     ∧ pending_agentupdates 1 (agent_update sample_settings 1 w').2
       = [sample_action 3 "1.3.0"; new_action sample_settings agent' w']).
Proof. repeat split; try reflexivity. discriminate. Qed.

Lemma agent_update_created_scenario_witness :
  let agent := sample_agent "1.1.10" (Some "64") in
  let w := sample_world agent [] [] in
  (agent_update sample_settings 1 w).1 = Ok "created"
  ∧ ∃ action : PendingAction.t,
      Agent_pendingactions 1 (agent_update sample_settings 1 w).2 = [action]
      ∧ PendingAction.action_type action = "agentupdate"
      ∧ PendingAction.status action = "pending"
      ∧ PendingAction.details action !! "version" = Some (PStr "1.2.0").
Proof.
  intros agent w.
  apply (agent_update_created_scenario sample_settings w 1 agent);
    solve [reflexivity | discriminate].
Defined.

(** Against C1 as stated, in two ways.  An agent of version 1.1.10,
    push-capable, with no pending actions, but whose architecture is
    unknown, gets [noarch] with target 1.2.0, and no PendingAction is
    created.  And the target is not the caller's: the batch driver called
    with version 1.2.0 while the configured latest version is 1.3.0 leaves a
    PendingAction that records 1.3.0. *)
Lemma agent_update_unknown_arch_not_created :
  let agent := sample_agent "1.1.10" None in
  let w := sample_world agent [] [] in
  let agent' := sample_agent "1.1.10" (Some "64") in
  let w' := sample_world agent' [] [] in
  (LATEST_AGENT_VER sample_settings = "1.2.0"
   ∧ Agent_objects_get 1 w = (Ok agent, w)
   ∧ Agent.version agent = "1.1.10"
   ∧ Agent.has_nats agent = true
   ∧ Agent_pendingactions 1 w = []
   ∧ (agent_update sample_settings 1 w).1 = Ok "noarch"
   ∧ (agent_update sample_settings 1 w).1 ≠ Ok "created"
   ∧ pendingactions (agent_update sample_settings 1 w).2 = [])
  ∧ (LATEST_AGENT_VER newer_settings = "1.3.0"
     ∧ (send_agent_update_task newer_settings [1%Z] "1.2.0" w').1 = Ok tt
     ∧ List.map (λ a, PendingAction.details a !! "version")
         (Agent_pendingactions 1
            (send_agent_update_task newer_settings [1%Z] "1.2.0" w').2)
       = [Some (PStr "1.3.0")]).
Proof. repeat split; try reflexivity. discriminate. Qed.

(** ** The uninstall workflow *)

Lemma trace_set_trace (t : list event) (w : world) : trace (set_trace t w) = t.
Proof. reflexivity. Qed.

Lemma set_trace_set_trace (t t' : list event) (w : world) :
  set_trace t' (set_trace t w) = set_trace t' w.
Proof. reflexivity. Qed.

Lemma posts_app (t t' : list event) : posts (t ++ t') = posts t + posts t'.
Proof. unfold posts. rewrite List.filter_app, length_app. reflexivity. Qed.

Lemma posts_snoc_log (t : list event) (lvl : level) (msg : string) :
  posts (t ++ [Log lvl msg]) = posts t.
Proof. rewrite posts_app. cbn. lia. Qed.

Section Uninstall.

Variable settings : Settings.
Variable env : Env.

Local Abbreviation post := (uninstall_post settings).
Local Abbreviation fails := (attempt_fails env).

Lemma requests_post_run (url : string) (body : pyval) (timeout : Z) (w : world) :
  requests_post env url body timeout w =
    (match http_post env (posts (trace w)) with
     | Some r => Ok r
     | None => Raise ConnectionError
     end,
     set_trace (trace w ++ [HttpPost url body timeout]) w).
Proof. unfold requests_post. destruct (http_post _ _); reflexivity. Qed.

(** One iteration issues one post, does not raise, and moves the counter as
    the outcome of that post says. *)
Lemma uninstall_attempt_run (salt_id : string) (w : world) :
  ∃ outcome : option pyval,
    uninstall_attempt settings env salt_id w =
      (Ok outcome, set_trace (trace w ++ [post salt_id]) w)
    ∧ ∀ attempts : Z,
        count_attempt attempts outcome =
          if fails salt_id (posts (trace w)) then (attempts + 1)%Z else 0%Z.
Proof.
  unfold uninstall_attempt, try_except, attempt_fails.
  rewrite run_bind, requests_post_run.
  destruct (http_post env (posts (trace w))) as [r|].
  - rewrite run_lift_bind.
    destruct (per_agent_result r salt_id) as [ret|e].
    + exists (Some ret). split; [reflexivity|]. intros attempts. reflexivity.
    + exists None. split; [reflexivity|]. intros attempts. reflexivity.
  - exists None. split; [reflexivity|]. intros attempts. reflexivity.
Qed.

(** The loop, one iteration unfolded. *)
Lemma uninstall_loop_step (salt_id : string) (attempts : Z) (w : world) :
  uninstall_loop settings env salt_id attempts w =
    let w' := set_trace (trace w ++ [post salt_id]) w in
    if fails salt_id (posts (trace w)) then
      if decide (attempts + 1 >= 10)%Z then (Ok ((attempts + 1)%Z, true), w')
      else if decide (attempts + 1 = 0)%Z then (Ok ((attempts + 1)%Z, false), w')
      else uninstall_loop settings env salt_id (attempts + 1) w'
    else (Ok (0%Z, false), w').
Proof.
  rewrite uninstall_loop_equation_1, run_bind.
  destruct (uninstall_attempt_run salt_id w) as (outcome & -> & Hcount).
  cbv zeta. rewrite Hcount.
  destruct (fails salt_id (posts (trace w))).
  - repeat case_decide; reflexivity.
  - reflexivity.
Qed.

Lemma uninstall_loop_success (salt_id : string) (n : nat) :
  ∀ (attempts : Z) (w : world),
    (0 ≤ attempts)%Z → (attempts + Z.of_nat n < 10)%Z →
    (∀ m, m < n → fails salt_id (posts (trace w) + m) = true) →
    fails salt_id (posts (trace w) + n) = false →
    uninstall_loop settings env salt_id attempts w =
      (Ok (0%Z, false),
       set_trace (trace w ++ repeat (post salt_id) (S n)) w).
Proof.
  induction n as [|n IH]; intros attempts w Hpos Hbound Hfail Hok.
  - rewrite uninstall_loop_step. rewrite Nat.add_0_r in Hok. rewrite Hok.
    reflexivity.
  - rewrite uninstall_loop_step.
    rewrite <- (Nat.add_0_r (posts (trace w))), (Hfail 0%nat) by lia.
    cbv zeta. repeat case_decide; try lia.
    rewrite IH; try lia.
    + rewrite set_trace_set_trace, trace_set_trace, <- app_assoc. reflexivity.
    + intros m Hm. rewrite trace_set_trace, posts_app. cbn.
      replace (posts (trace w) + 1 + m) with (posts (trace w) + S m) by lia.
      apply Hfail. lia.
    + rewrite trace_set_trace, posts_app. cbn.
      replace (posts (trace w) + 1 + n) with (posts (trace w) + S n) by lia.
      assumption.
Qed.

Lemma uninstall_loop_failure (salt_id : string) (n : nat) :
  ∀ (attempts : Z) (w : world),
    (0 ≤ attempts)%Z → (attempts + Z.of_nat (S n) = 10)%Z →
    (∀ m, m < S n → fails salt_id (posts (trace w) + m) = true) →
    uninstall_loop settings env salt_id attempts w =
      (Ok (10%Z, true),
       set_trace (trace w ++ repeat (post salt_id) (S n)) w).
Proof.
  induction n as [|n IH]; intros attempts w Hpos Hbound Hfail.
  - rewrite uninstall_loop_step.
    rewrite <- (Nat.add_0_r (posts (trace w))), (Hfail 0%nat) by lia.
    cbv zeta. repeat case_decide; try lia.
    replace (attempts + 1)%Z with 10%Z by lia. reflexivity.
  - rewrite uninstall_loop_step.
    rewrite <- (Nat.add_0_r (posts (trace w))), (Hfail 0%nat) by lia.
    cbv zeta. repeat case_decide; try lia.
    rewrite IH; try lia.
    + rewrite set_trace_set_trace, trace_set_trace, <- app_assoc. reflexivity.
    + intros m Hm. rewrite trace_set_trace, posts_app. cbn.
      replace (posts (trace w) + 1 + m) with (posts (trace w) + S m) by lia.
      apply Hfail. lia.
Qed.

(** The loop always ends: from any counter it returns, without raising. *)
Lemma uninstall_loop_returns_within (salt_id : string) (fuel : nat) :
  ∀ (attempts : Z) (w : world),
    Z.to_nat (10 - attempts) ≤ fuel →
    ∃ (n : Z) (error : bool) (w' : world),
      uninstall_loop settings env salt_id attempts w = (Ok (n, error), w').
Proof.
  induction fuel as [|fuel IH]; intros attempts w Hfuel;
    rewrite uninstall_loop_step; cbv zeta;
    destruct (fails salt_id (posts (trace w))); repeat case_decide;
    eauto; try lia.
  apply IH. lia.
Qed.

Lemma uninstall_loop_returns (salt_id : string) (attempts : Z) (w : world) :
  ∃ (n : Z) (error : bool) (w' : world),
    uninstall_loop settings env salt_id attempts w = (Ok (n, error), w').
Proof. eapply uninstall_loop_returns_within. reflexivity. Qed.

(** What follows the loop: the log line that the [error] flag selects, then
    the key-delete post, with its own error line if it raises. *)
Lemma uninstall_agent_task_after_loop
    (salt_id : string) (has_nats : bool) (w w1 : world) (n : Z) (error : bool) :
  (if negb has_nats then uninstall_loop settings env salt_id 0 w
   else (Ok (0%Z, false), w)) = (Ok (n, error), w1) →
  uninstall_agent_task settings env salt_id has_nats w =
    (Ok "ok",
     set_trace
       (trace w1 ++
          (if error then uninstall_failed_log salt_id
           else uninstall_success_log salt_id)
          :: key_delete_step settings env salt_id (posts (trace w1)))
       w1).
Proof.
  intros Hloop. unfold uninstall_agent_task. rewrite run_bind.
  replace ((if negb has_nats then uninstall_loop settings env salt_id 0
            else mret (0%Z, false)) w) with (Ok (n, error), w1)
    by (rewrite <- Hloop; destruct has_nats; reflexivity).
  assert (∀ lvl msg, logger lvl msg w1
                     = (Ok tt, set_trace (trace w1 ++ [Log lvl msg]) w1)) as Hlog
    by reflexivity.
  unfold key_delete_step, uninstall_failed_log, uninstall_success_log.
  destruct error; cbn [snd]; rewrite run_bind, Hlog, run_bind;
    unfold try_except;
    rewrite run_bind, requests_post_run, trace_set_trace, posts_snoc_log;
    destruct (http_post env (posts (trace w1))); cbn;
    repeat rewrite <- app_assoc; reflexivity.
Qed.

Lemma posts_repeat_post (salt_id : string) (n : nat) :
  posts (repeat (post salt_id) n) = n.
Proof. induction n as [|n IH]; [reflexivity|]. unfold posts in *. cbn. lia. Qed.

Lemma append_inj_l (s a b : string) : s +:+ a = s +:+ b → a = b.
Proof.
  induction s as [|c s IH]; cbn; [tauto|].
  intros H. apply IH. injection H as H. exact H.
Qed.

(** C5: in the uninstall workflow of an agent that is not push-capable, with
    [k] posts made before the task starts: if the first success is the
    attempt number [n + 1] with [n < 10], the loop ends after exactly that
    attempt in the success state (counter 0, no error), the success line is
    logged and the failure line is not; if the first ten attempts all fail,
    the loop ends after the tenth in the failed state (counter 10, error),
    the failure line is logged, and the key-delete post is still issued.  An
    attempt fails when its post raises or its per-agent result is not "ok". *)
Theorem uninstall_retry_outcomes (salt_id : string) (w : world) :
  let k := posts (trace w) in
  (∀ n : nat,
      n < 10 →
      (∀ m, m < n → fails salt_id (k + m) = true) →
      fails salt_id (k + n) = false →
      let added :=
        repeat (post salt_id) (S n)
          ++ uninstall_success_log salt_id
             :: key_delete_step settings env salt_id (k + S n) in
      uninstall_loop settings env salt_id 0 w =
        (Ok (0%Z, false), set_trace (trace w ++ repeat (post salt_id) (S n)) w)
      ∧ uninstall_agent_task settings env salt_id false w =
          (Ok "ok", set_trace (trace w ++ added) w)
      ∧ ¬ In (uninstall_failed_log salt_id) added)
  ∧ ((∀ m, m < 10 → fails salt_id (k + m) = true) →
     let added :=
       repeat (post salt_id) 10
         ++ uninstall_failed_log salt_id
            :: key_delete_step settings env salt_id (k + 10) in
     uninstall_loop settings env salt_id 0 w =
       (Ok (10%Z, true), set_trace (trace w ++ repeat (post salt_id) 10) w)
     ∧ uninstall_agent_task settings env salt_id false w =
         (Ok "ok", set_trace (trace w ++ added) w)
     ∧ In (uninstall_failed_log salt_id) added
     ∧ In (key_delete_post settings salt_id) added).
Proof.
  intros k. split.
  - intros n Hn Hfail Hok added.
    assert (uninstall_loop settings env salt_id 0 w =
              (Ok (0%Z, false),
               set_trace (trace w ++ repeat (post salt_id) (S n)) w)) as Hloop
      by (apply uninstall_loop_success; [lia | lia | exact Hfail | exact Hok]).
    split; [exact Hloop|]. split.
    + rewrite (uninstall_agent_task_after_loop salt_id false w _ 0%Z false Hloop).
      rewrite trace_set_trace, posts_app, posts_repeat_post, set_trace_set_trace.
      rewrite <- app_assoc. reflexivity.
    + subst added. rewrite in_app_iff. intros [Hin|Hin].
      * apply repeat_spec in Hin. discriminate.
      * unfold key_delete_step in Hin.
        destruct Hin as [Hin|[Hin|Hin]]; try discriminate.
        destruct (http_post env (k + S n)); [destruct Hin|].
        destruct Hin as [Hin|[]]. unfold uninstall_failed_log in Hin.
        injection Hin as Hin. apply append_inj_l in Hin. discriminate.
  - intros Hfail added.
    assert (uninstall_loop settings env salt_id 0 w =
              (Ok (10%Z, true),
               set_trace (trace w ++ repeat (post salt_id) 10) w)) as Hloop
      by (apply (uninstall_loop_failure salt_id 9); [lia | lia | exact Hfail]).
    split; [exact Hloop|]. split; [|split].
    + rewrite (uninstall_agent_task_after_loop salt_id false w _ 10%Z true Hloop).
      rewrite trace_set_trace, posts_app, posts_repeat_post, set_trace_set_trace.
      rewrite <- app_assoc. reflexivity.
    + subst added. apply in_or_app. right. left. reflexivity.
    + subst added. apply in_or_app. right. right. left. reflexivity.
Qed.

(** C6: the uninstall task returns "ok" whatever the loop and the key-delete
    step met: for every environment, every minion, push-capable or not, and
    every world it starts in, the task returns, and returns "ok". *)
Theorem uninstall_agent_task_returns_ok
    (salt_id : string) (has_nats : bool) (w : world) :
  (uninstall_agent_task settings env salt_id has_nats w).1 = Ok "ok".
Proof.
  assert (∃ n error w1,
            (if negb has_nats then uninstall_loop settings env salt_id 0 w
             else (Ok (0%Z, false), w)) = (Ok (n, error), w1))
    as (n & error & w1 & Hloop).
  { destruct has_nats; cbn [negb].
    - eauto.
    - apply uninstall_loop_returns. }
  rewrite (uninstall_agent_task_after_loop salt_id has_nats w w1 n error Hloop).
  reflexivity.
Qed.

End Uninstall.

Lemma uninstall_retry_outcomes_witness :
  let w := sample_world (sample_agent "1.1.10" (Some "64")) [] [] in
  uninstall_agent_task sample_settings (sample_env 3) "m1" false w =
    (Ok "ok",
     set_trace
       (repeat (uninstall_post sample_settings "m1") 4
          ++ [uninstall_success_log "m1"; key_delete_post sample_settings "m1"])
       w)
  ∧ uninstall_agent_task sample_settings unreachable_env "m1" false w =
      (Ok "ok",
       set_trace
         (repeat (uninstall_post sample_settings "m1") 10
            ++ [uninstall_failed_log "m1"; key_delete_post sample_settings "m1";
                Log ERROR "m1 unable to remove salt-key"])
         w).
Proof.
  intros w. split.
  - refine
      (proj1 (proj2
         (proj1 (uninstall_retry_outcomes sample_settings (sample_env 3) "m1" w)
            3 _ _ _)));
      [ lia | | reflexivity ].
    intros m Hm. destruct m as [|[|[|m]]]; [reflexivity..|lia].
  - refine
      (proj1 (proj2
         (proj2 (uninstall_retry_outcomes sample_settings unreachable_env "m1" w)
            _))).
    intros m Hm. reflexivity.
Defined.

(** ** The outage sweep *)

Lemma outages_of_recorded (agent : Agent.t) (pk : Z) (w : world) :
  outages_of pk (outage_recorded agent w) =
    outages_of pk w
      ++ (if Z.eqb (Agent.pk agent) pk
          then [AgentOutage.new (outage_seq w) (Agent.pk agent)] else []).
Proof.
  unfold outages_of, outage_recorded. cbn [outages set_trace set_outages].
  rewrite List.filter_app. reflexivity.
Qed.

(** One iteration of the sweep: it records a new outage exactly when the
    agent is one the sweep acts on and its latest outage, if any, is not
    active; otherwise it leaves the world alone. *)
Lemma agent_outages_step_run (agent : Agent.t) (w : world) :
  agent_outages_step agent w =
    (Ok tt,
     if alerting_overdue agent
        && negb (last_is_active (outages_of (Agent.pk agent) w))
     then outage_recorded agent w
     else w).
Proof.
  unfold agent_outages_step, alerting_overdue.
  destruct (Agent.overdue_email_alert agent || Agent.overdue_text_alert agent);
    [|reflexivity].
  destruct (String.eqb (Agent.status agent) "overdue"); [|reflexivity].
  rewrite run_gets_bind.
  destruct (last_is_active (outages_of (Agent.pk agent) w)); [reflexivity|].
  unfold outage_recorded, outage_jobs. cbn [andb negb].
  rewrite run_bind. unfold AgentOutage_create. cbv zeta. rewrite run_bind.
  cbn [AgentOutage.pk AgentOutage.new].
  destruct (Agent.overdue_email_alert agent && negb (Agent.maintenance_mode agent));
    destruct (Agent.overdue_text_alert agent && negb (Agent.maintenance_mode agent));
    unfold delay, emit, modify; cbn; rewrite ?app_nil_r, <- ?app_assoc;
    reflexivity.
Qed.

Lemma tracked_after_step (agent : Agent.t) (w : world) :
  tracked agent (agent_outages_step agent w).2.
Proof.
  rewrite agent_outages_step_run. cbn [snd]. intros Hact. rewrite Hact. cbn [andb].
  destruct (last_is_active (outages_of (Agent.pk agent) w)) eqn:Hlast;
    cbn [negb]; [exact Hlast|].
  rewrite outages_of_recorded, Z.eqb_refl. unfold last_is_active.
  rewrite last_snoc. reflexivity.
Qed.

Lemma tracked_preserved (agent other : Agent.t) (w : world) :
  tracked other w → tracked other (agent_outages_step agent w).2.
Proof.
  intros Htracked Hact. specialize (Htracked Hact).
  rewrite agent_outages_step_run. cbn [snd].
  destruct (alerting_overdue agent
            && negb (last_is_active (outages_of (Agent.pk agent) w)));
    [|exact Htracked].
  rewrite outages_of_recorded.
  destruct (Z.eqb (Agent.pk agent) (Agent.pk other)).
  - unfold last_is_active. rewrite last_snoc. reflexivity.
  - rewrite app_nil_r. exact Htracked.
Qed.

Lemma agents_after_step (agent : Agent.t) (w : world) :
  agents (agent_outages_step agent w).2 = agents w.
Proof.
  rewrite agent_outages_step_run. cbn [snd].
  destruct (_ && _); reflexivity.
Qed.

Lemma for_each_cons {A} (x : A) (l : list A) (body : A → M unit) (w : world) :
  for_each (x :: l) body w =
    match body x w with
    | (Ok _, w') => for_each l body w'
    | (Raise e, w') => (Raise e, w')
    end.
Proof. reflexivity. Qed.

(** The loop over a list of agents returns, keeps the agents table, and
    leaves every agent of the list, and every agent that was tracked before,
    tracked. *)
Lemma sweep_tracks (l : list Agent.t) :
  ∀ w : world,
    (for_each l agent_outages_step w).1 = Ok tt
    ∧ agents (for_each l agent_outages_step w).2 = agents w
    ∧ (∀ other, tracked other w →
                tracked other (for_each l agent_outages_step w).2)
    ∧ Forall (λ agent, tracked agent (for_each l agent_outages_step w).2) l.
Proof.
  induction l as [|agent l IH]; intros w.
  - cbn. auto.
  - rewrite for_each_cons.
    pose proof (tracked_after_step agent w) as Hnow.
    pose proof (λ other, tracked_preserved agent other w) as Hkeep.
    pose proof (agents_after_step agent w) as Hagents.
    destruct (agent_outages_step agent w) as [r w1] eqn:Hstep.
    rewrite agent_outages_step_run in Hstep. injection Hstep as <- Hw1.
    cbn [snd] in Hnow, Hkeep, Hagents.
    destruct (IH w1) as (Hok & Hag & Hpres & Hall).
    split; [exact Hok|]. split; [congruence|]. split.
    + intros other Hother. apply Hpres, Hkeep, Hother.
    + constructor; [apply Hpres; exact Hnow | exact Hall].
Qed.

(** Over agents that are all tracked the loop does nothing. *)
Lemma sweep_of_tracked (l : list Agent.t) (w : world) :
  Forall (λ agent, tracked agent w) l →
  for_each l agent_outages_step w = (Ok tt, w).
Proof.
  induction 1 as [|agent l Htracked _ IH]; [reflexivity|].
  rewrite for_each_cons, agent_outages_step_run.
  destruct (alerting_overdue agent) eqn:Hact; cbn [andb]; [|exact IH].
  rewrite (Htracked Hact). exact IH.
Qed.

(** C7: a second run of the outage sweep on the registry as the first run
    left it changes nothing: it returns and leaves the world as it found it,
    so it creates no further AgentOutage record, for any agent, and
    schedules no further notification job. *)
Theorem agent_outages_task_idempotent (w : world) :
  let w1 := (agent_outages_task w).2 in
  (agent_outages_task w).1 = Ok tt
  ∧ agent_outages_task w1 = (Ok tt, w1)
  ∧ outages (agent_outages_task w1).2 = outages w1
  ∧ trace (agent_outages_task w1).2 = trace w1.
Proof.
  intros w1.
  assert (∀ w0, agent_outages_task w0
                = for_each (agents w0) agent_outages_step w0) as Hrun
    by reflexivity.
  destruct (sweep_tracks (agents w) w) as (Hok & Hagents & _ & Hall).
  rewrite <- Hrun in Hok, Hagents, Hall. fold w1 in Hagents, Hall.
  assert (agent_outages_task w1 = (Ok tt, w1)) as Hsecond.
  { rewrite Hrun. apply sweep_of_tracked. rewrite Hagents. exact Hall. }
  rewrite Hsecond. auto.
Qed.

(** C9: for an agent the sweep acts on, whether a new outage is recorded is
    decided by the latest outage of that agent alone: if it is active, the
    world is left as it is; if it is not, a new AgentOutage is appended,
    whatever the older records of the agent are, and those stay in place
    (so an older active record and the new one are then both active). *)
Theorem outage_dedup_looks_at_latest_only
    (agent : Agent.t) (w : world) (latest : AgentOutage.t) :
  alerting_overdue agent = true →
  last (outages_of (Agent.pk agent) w) = Some latest →
  agent_outages_step agent w =
    (Ok tt, if AgentOutage.is_active latest then w else outage_recorded agent w)
  ∧ (AgentOutage.is_active latest = false →
     outages (agent_outages_step agent w).2 =
       outages w ++ [AgentOutage.new (outage_seq w) (Agent.pk agent)]
     ∧ ∀ older : AgentOutage.t,
         In older (outages_of (Agent.pk agent) w) →
         In older (outages_of (Agent.pk agent) (agent_outages_step agent w).2)).
Proof.
  intros Hact Hlast.
  assert (last_is_active (outages_of (Agent.pk agent) w)
          = AgentOutage.is_active latest) as Hlatest
    by (unfold last_is_active; rewrite Hlast; reflexivity).
  rewrite agent_outages_step_run, Hact, Hlatest. cbn [andb snd].
  split.
  - destruct (AgentOutage.is_active latest); reflexivity.
  - intros ->. cbn [negb]. split; [reflexivity|].
    intros older Hin. rewrite outages_of_recorded. apply in_or_app. left. exact Hin.
Qed.

Lemma outage_dedup_looks_at_latest_only_witness :
  let agent := sample_agent "1.1.10" (Some "64") in
  let w := sample_world agent [] [sample_outage 3 None; sample_outage 4 (Some 100%Z)] in
  outages (agent_outages_step agent w).2 =
    [sample_outage 3 None; sample_outage 4 (Some 100%Z); AgentOutage.new 10 1]
  ∧ AgentOutage.is_active (sample_outage 3 None) = true
  ∧ AgentOutage.is_active (AgentOutage.new 10 1) = true.
Proof.
  intros agent w. split; [|split; reflexivity].
  refine
    (proj1
       (proj2
          (outage_dedup_looks_at_latest_only agent w (sample_outage 4 (Some 100%Z))
             _ _)
          _));
    reflexivity.
Defined.

(** ** The notification jobs *)

Lemma get_set_field (f : outage_field) (v : bool) (o : AgentOutage.t) :
  get_field f (set_field f v o) = v.
Proof. destruct o, f; reflexivity. Qed.

Lemma pk_set_field (f : outage_field) (v : bool) (o : AgentOutage.t) :
  AgentOutage.pk (set_field f v o) = AgentOutage.pk o.
Proof. destruct o, f; reflexivity. Qed.

Lemma same_except_set_field (f : outage_field) (v : bool) (o : AgentOutage.t) :
  same_except f o (set_field f v o).
Proof.
  destruct o. repeat split; try (destruct f; reflexivity).
  intros g Hg. destruct f, g; solve [reflexivity | congruence].
Qed.

Lemma same_except_refl (f : outage_field) (o : AgentOutage.t) : same_except f o o.
Proof. repeat split. Qed.

Lemma confirmed_same_except (f : outage_field) (pk : Z) (rows : list AgentOutage.t) :
  Forall2 (same_except f) rows (confirmed f pk rows).
Proof.
  induction rows as [|row rows IH]; cbn; constructor; [|exact IH].
  destruct (Z.eqb (AgentOutage.pk row) pk);
    [apply same_except_set_field | apply same_except_refl].
Qed.

Lemma AgentOutage_objects_get_pk (pk : Z) (w w' : world) (o : AgentOutage.t) :
  AgentOutage_objects_get pk w = (Ok o, w') → AgentOutage.pk o = pk ∧ w' = w.
Proof.
  unfold AgentOutage_objects_get. intros H.
  destruct (List.find _ _) as [b|] eqn:Hfind; inversion H; subst.
  apply List.find_some in Hfind as [_ Hb]. split; [lia | reflexivity].
Qed.

Section Notification.

Variable env : Env.

(** C10: each of the four notification jobs, on an outage of the registry:
    it sleeps, then calls its notifier, and only then writes.  If the
    notifier raises, the job ends with that exception and the registry is as
    before (the flag is unchanged, nothing is written).  If the notifier
    returns, the job returns, and the outage table differs from the one
    before in the job's own flag of that outage only: every row keeps its
    key, agent, resolution time and its three other flags. *)
Theorem notification_job_confirms_after_notifier
    (n : notifier) (pk : Z) (w : world) (outage : AgentOutage.t) :
  AgentOutage_objects_get pk w = (Ok outage, w) →
  let called :=
    set_trace
      (trace w ++ [Sleep (random_randint env 1 (jitter n)); Notify n pk]) w in
  (notifier_returns env n pk = false →
   notification_task env n pk w = (Raise NotifierError, called)
   ∧ outages called = outages w)
  ∧ (notifier_returns env n pk = true →
     notification_task env n pk w =
       (Ok tt,
        set_outages (confirmed (confirmation_flag n) pk (outages w))
          (outage_seq w) called)
     ∧ Forall2 (same_except (confirmation_flag n))
         (outages w) (outages (notification_task env n pk w).2)
     ∧ ∀ row, In row (outages (notification_task env n pk w).2) →
              AgentOutage.pk row = pk →
              get_field (confirmation_flag n) row = true).
Proof.
  intros Hget called.
  destruct (AgentOutage_objects_get_pk _ _ _ _ Hget) as [Hpk _].
  assert (∀ s, AgentOutage_objects_get pk (set_trace (trace w ++ [Sleep s]) w)
               = (Ok outage, set_trace (trace w ++ [Sleep s]) w)) as Hget'.
  { intros s. revert Hget. unfold AgentOutage_objects_get. cbn [outages set_trace].
    destruct (List.find _ _); intros H; inversion H; reflexivity. }
  split; intros Hnotifier.
  - split; [|reflexivity].
    destruct n; cbn [notification_task jitter];
      unfold agent_outage_email_task, agent_recovery_email_task,
        agent_outage_sms_task, agent_recovery_sms_task, sleep, emit, modify;
      rewrite run_bind; cbv beta iota; rewrite run_bind, Hget';
      unfold call_notifier, emit, modify; rewrite !run_bind; cbv beta iota;
      rewrite Hpk, Hnotifier; subst called; cbn;
      rewrite <- app_assoc; reflexivity.
  - assert (notification_task env n pk w =
              (Ok tt,
               set_outages (confirmed (confirmation_flag n) pk (outages w))
                 (outage_seq w) called)) as Hrun.
    { destruct n; cbn [notification_task jitter confirmation_flag];
        unfold agent_outage_email_task, agent_recovery_email_task,
          agent_outage_sms_task, agent_recovery_sms_task, sleep, emit, modify;
        rewrite run_bind; cbv beta iota; rewrite run_bind, Hget';
        unfold call_notifier, emit, modify; rewrite !run_bind; cbv beta iota;
        rewrite Hpk, Hnotifier; subst called;
        unfold AgentOutage_save, modify, confirmed;
        rewrite get_set_field, pk_set_field, Hpk; cbn;
        rewrite <- app_assoc; reflexivity. }
    rewrite Hrun. cbn [snd outages set_outages].
    split; [reflexivity|]. split; [apply confirmed_same_except|].
    intros row Hin Hrow. unfold confirmed in Hin.
    apply List.in_map_iff in Hin as (row0 & Heq & _).
    destruct (Z.eqb (AgentOutage.pk row0) pk) eqn:Hpk0.
    + subst row. apply get_set_field.
    + subst row. lia.
Qed.

End Notification.

Lemma notification_job_confirms_after_notifier_witness :
  let w := sample_world (sample_agent "1.1.10" (Some "64")) []
             [sample_outage 3 None; sample_outage 4 None] in
  outages (agent_outage_sms_task (sample_env 0) 4 w).2
  = [sample_outage 3 None;
     {| AgentOutage.pk := 4; AgentOutage.agent := 1;
        AgentOutage.recovery_time := None;
        AgentOutage.outage_email_sent := true;
        AgentOutage.outage_sms_sent := true;
        AgentOutage.recovery_email_sent := false;
        AgentOutage.recovery_sms_sent := false |}]
  ∧ agent_outage_sms_task unreachable_env 4 w =
      (Raise NotifierError,
       set_trace [Sleep 1; Notify send_outage_sms 4] w).
Proof.
  intros w. split.
  - exact
      (f_equal (λ r, outages r.2)
         (proj1
            (proj2
               (notification_job_confirms_after_notifier (sample_env 0)
                  send_outage_sms 4 w (sample_outage 4 None) eq_refl)
               eq_refl))).
  - exact
      (proj1
         (proj1
            (notification_job_confirms_after_notifier unreachable_env
               send_outage_sms 4 w (sample_outage 4 None) eq_refl)
            eq_refl)).
Defined.

(** ** The script-run notifier *)

Section ScriptRun.

Variable env : Env.

(** C8: when the bounded [runscriptfull] call reports "timeout", the task
    logs the timeout and returns; what it did is the call and that log line,
    so no report is composed and no SMTP step is taken. *)
Theorem run_script_timeout_sends_no_email
    (agentpk scriptpk nats_timeout : Z) (nats_data : gmap string pyval)
    (emails : list string) (w : world) (agent : Agent.t) (script : Script.t) :
  Agent_objects_get agentpk w = (Ok agent, w) →
  Script_objects_get scriptpk w = (Ok script, w) →
  nats_reply env agentpk (<["func" := PStr "runscriptfull"]> nats_data)
    = PStr "timeout" →
  let effects :=
    [NatsCmd agentpk (<["func" := PStr "runscriptfull"]> nats_data) true
       (Some nats_timeout);
     Log ERROR (Agent.hostname agent +:+ " timed out running script.")] in
  run_script_email_results_task env agentpk scriptpk nats_timeout nats_data emails w
    = (Ok tt, set_trace (trace w ++ effects) w)
  ∧ ∀ a : smtp_action, ¬ In (Smtp a) effects.
Proof.
  intros Hagent Hscript Hreply effects.
  destruct (Agent_objects_get_pk _ _ _ _ Hagent) as [Hpk _].
  split.
  - unfold run_script_email_results_task.
    rewrite run_bind, Hagent, run_bind, Hscript. cbv zeta.
    unfold nats_cmd, emit, modify. rewrite !run_bind. cbv beta iota.
    rewrite Hpk, Hreply. cbn. unfold logger, emit, modify, effects. cbn.
    rewrite <- app_assoc. reflexivity.
  - intros a [Hin|[Hin|[]]]; discriminate.
Qed.

End ScriptRun.

Lemma run_script_timeout_sends_no_email_witness :
  let w := sample_world (sample_agent "1.1.12" (Some "64")) [] [] in
  run_script_email_results_task unreachable_env 1 1 30
    {[ "payload" := PDict {[ "code" := PStr "exit 0" ]} ]} ["ops@example.com"] w
  = (Ok tt,
     set_trace
       [NatsCmd 1
          {[ "func" := PStr "runscriptfull";
             "payload" := PDict {[ "code" := PStr "exit 0" ]} ]}
          true (Some 30%Z);
        Log ERROR "DESKTOP-1 timed out running script."]
       w).
Proof.
  intros w.
  exact
    (proj1
       (run_script_timeout_sends_no_email unreachable_env 1 1 30
          {[ "payload" := PDict {[ "code" := PStr "exit 0" ]} ]}
          ["ops@example.com"] w
          (sample_agent "1.1.12" (Some "64"))
          {| Script.pk := 1; Script.name := "cleanup" |}
          eq_refl eq_refl eq_refl)).
Defined.

(** * Further properties *)

(** ** The update decision, continued *)

Lemma tuple_compare_refl (k : list N) : pyver.tuple_compare k k = Eq.
Proof. induction k as [|x k IH]; cbn; [reflexivity|]. rewrite N.compare_refl. exact IH. Qed.

Lemma pyver_ltb_irrefl (v : pyver.Version) : pyver.ltb v v = false.
Proof. unfold pyver.ltb, pyver.compare. rewrite tuple_compare_refl. reflexivity. Qed.

Lemma Agent_objects_get_same_agents (pk : Z) (w w' : world) (agent : Agent.t) :
  agents w' = agents w →
  Agent_objects_get pk w = (Ok agent, w) →
  Agent_objects_get pk w' = (Ok agent, w').
Proof.
  unfold Agent_objects_get. intros ->.
  destruct (List.find _ _); intros H; inversion H; reflexivity.
Qed.

(** Rows with distinct keys: a row with the key of [action] is [action]. *)
Lemma NoDup_pk_eq (l : list PendingAction.t) (action a : PendingAction.t) :
  NoDup (List.map PendingAction.pk l) →
  In action l → In a l → PendingAction.pk a = PendingAction.pk action →
  a = action.
Proof.
  induction l as [|x l IH]; cbn; [tauto|].
  intros Hnd Hact Ha Hpk. apply NoDup_cons in Hnd as [Hx Hnd].
  destruct Hact as [->|Hact], Ha as [->|Ha]; auto.
  - exfalso. apply Hx. rewrite <- Hpk. apply list_elem_of_In, in_map, Ha.
  - exfalso. apply Hx. rewrite Hpk. apply list_elem_of_In, in_map, Hact.
Qed.

Lemma filter_filter_same {A} (P Q : A → bool) (l : list A) :
  (∀ a, In a l → Q a = false → P a = false) →
  List.filter P (List.filter Q l) = List.filter P l.
Proof.
  induction l as [|x l IH]; intros H; cbn; [reflexivity|].
  rewrite <- IH by (intros a Ha; apply H; right; exact Ha).
  destruct (Q x) eqn:HQ; cbn; [reflexivity|].
  rewrite (H x (or_introl eq_refl) HQ). reflexivity.
Qed.

Section AgentUpdateMore.

Variable settings : Settings.

Lemma new_action_version (agent : Agent.t) (w : world) :
  PendingAction.details (new_action settings agent w) !! "version"
  = Some (PStr (LATEST_AGENT_VER settings)).
Proof. reflexivity. Qed.

(** When the latest pending action is one that [agent_update] created, the
    decision is [pending]. *)
Lemma agent_update_after_new_action
    (w w1 : world) (agent : Agent.t) (v v_target : pyver.Version) :
  Agent_objects_get (Agent.pk agent) w1 = (Ok agent, w1) →
  Agent.arch agent ≠ None →
  Agent.has_nats agent = true →
  pyver.parse (Agent.version agent) = Some v →
  pyver.leb v [1; 1; 11]%N = true →
  pyver.parse (LATEST_AGENT_VER settings) = Some v_target →
  last (pending_agentupdates (Agent.pk agent) w1)
  = Some (new_action settings agent w) →
  agent_update settings (Agent.pk agent) w1 = (Ok "pending", w1).
Proof.
  intros Hget Harch Hnats Hv Hgen Ht Hlast.
  pose proof (pyver_ltb_irrefl v_target) as Hirrefl.
  pose proof (agent_update_decision settings _ _ _ Hget) as D.
  inversion D;
    try match goal with
        | H : last (pending_agentupdates _ _) = _ |- _ =>
            rewrite Hlast in H; simplify_eq
        end;
    try match goal with
        | H : PendingAction.details (new_action _ _ _) !! "version" = _ |- _ =>
            rewrite new_action_version in H; simplify_eq
        end;
    try match goal with
        | H : pyver_parse_val (PStr _) = _ |- _ =>
            cbn in H; unfold pyver_parse in H; rewrite Ht in H; simplify_eq
        end;
    simplify_eq; congruence.
Qed.

(** X1: on a push-capable legacy agent, a call that returned [created] is
    followed by a call that returns [pending] and changes nothing, provided
    the configured latest version is a version. *)
Theorem agent_update_twice_is_pending
    (w : world) (pk : Z) (agent : Agent.t) (v v_target : pyver.Version) :
  Agent_objects_get pk w = (Ok agent, w) →
  pyver.parse (Agent.version agent) = Some v →
  pyver.leb v [1; 1; 11]%N = true →
  pyver.parse (LATEST_AGENT_VER settings) = Some v_target →
  (agent_update settings pk w).1 = Ok "created" →
  agent_update settings pk (agent_update settings pk w).2
  = (Ok "pending", (agent_update settings pk w).2).
Proof.
  intros Hget Hv Hgen Ht Hcreated.
  destruct (Agent_objects_get_pk _ _ _ _ Hget) as [Hpk _]. subst pk.
  pose proof (agent_update_decision settings _ _ _ Hget) as D.
  assert (∀ rows seq,
            Agent.arch agent ≠ None → Agent.has_nats agent = true →
            let w1 :=
              set_pendingactions (rows ++ [new_action settings agent w]) seq w in
            agent_update settings (Agent.pk agent) w1 = (Ok "pending", w1))
    as Hsecond.
  { intros rows seq Harch Hnats w1.
    apply (agent_update_after_new_action w w1 agent v v_target); try assumption.
    - apply (Agent_objects_get_same_agents _ w); [reflexivity | exact Hget].
    - unfold pending_agentupdates, w1. cbn [pendingactions set_pendingactions].
      rewrite List.filter_app. cbn [List.filter].
      rewrite new_action_is_pending. apply last_snoc. }
  destruct (agent_update settings (Agent.pk agent) w) as [r w1].
  cbn [fst snd] in *. subst r.
  inversion D; simplify_eq; try congruence; apply Hsecond; assumption.
Qed.

(** X2: with distinct primary keys in the table, a call for one agent leaves
    the pending actions of every other agent as they are. *)
Theorem agent_update_leaves_other_agents
    (w : world) (pk other : Z) (agent : Agent.t) :
  NoDup (List.map PendingAction.pk (pendingactions w)) →
  Agent_objects_get pk w = (Ok agent, w) →
  other ≠ pk →
  Agent_pendingactions other (agent_update settings pk w).2
  = Agent_pendingactions other w.
Proof.
  intros Hnd Hget Hother.
  destruct (Agent_objects_get_pk _ _ _ _ Hget) as [Hpk _]. subst pk.
  assert (Z.eqb (Agent.pk agent) other = false) as Hneq by lia.
  pose proof (agent_update_decision settings _ _ _ Hget) as D.
  destruct (agent_update settings (Agent.pk agent) w) as [r w1].
  inversion D; subst; cbn [snd]; try reflexivity;
    unfold Agent_pendingactions; cbn [pendingactions set_pendingactions];
    rewrite List.filter_app; cbn; rewrite Hneq, app_nil_r; [reflexivity|].
  match goal with H : last _ = Some _ |- _ => apply last_Some_In in H; rename H into Hin end.
  apply List.filter_In in Hin as [Hin Hpending].
  apply filter_filter_same. intros a Ha Hsame.
  assert (a = action) as ->.
  { apply (NoDup_pk_eq (pendingactions w)); try assumption.
    unfold other_than in Hsame. destruct (Z.eqb_spec (PendingAction.pk a) (PendingAction.pk action));
      [assumption | discriminate]. }
  unfold is_pending_agentupdate in Hpending.
  destruct (Z.eqb_spec (PendingAction.agent action) (Agent.pk agent)) as [->|];
    [exact Hneq | discriminate].
Qed.

Lemma older_than_none (version : string) (q : list Agent.t) (w : world) :
  Forall (not_below version) q → older_than version q w = (Ok [], w).
Proof.
  induction 1 as [|a q (v & t & Hv & Ht & Hlt) _ IH]; [reflexivity|].
  cbn [older_than]. rewrite run_lift_bind. unfold pyver_parse at 1. rewrite Hv.
  rewrite run_lift_bind. unfold pyver_parse at 1. rewrite Ht.
  rewrite run_bind, IH, Hlt. reflexivity.
Qed.

(** X4: the targeted batch does nothing when none of the agents it was
    given is below the requested version: it returns with the world
    unchanged (also when the list of keys is empty or matches no agent). *)
Theorem send_agent_update_task_skips_current
    (pks : list Z) (version : string) (w : world) :
  Forall (not_below version)
    (List.filter (λ a, bool_decide (Agent.pk a ∈ pks)) (agents w)) →
  send_agent_update_task settings pks version w = (Ok tt, w).
Proof.
  intros Hcurrent. unfold send_agent_update_task.
  rewrite run_gets_bind, run_bind, (older_than_none _ _ _ Hcurrent).
  reflexivity.
Qed.

(** X5: the automatic update does nothing but log when it is switched off,
    does nothing at all when every agent is at the configured latest version
    or above, and raises, with the world unchanged, when there is no
    settings row to read the switch from. *)
Theorem auto_self_agent_update_task_skips (w : world) :
  match head (coresettings w) with
  | None => auto_self_agent_update_task settings w = (Raise AttributeError, w)
  | Some core =>
      if CoreSettings.agent_auto_update core then
        Forall (not_below (LATEST_AGENT_VER settings)) (agents w) →
        auto_self_agent_update_task settings w = (Ok tt, w)
      else
        auto_self_agent_update_task settings w
        = (Ok tt,
           set_trace
             (trace w ++ [Log INFO "Agent auto update is disabled. Skipping."])
             w)
  end.
Proof.
  unfold auto_self_agent_update_task, CoreSettings_objects_first.
  rewrite run_gets_bind.
  destruct (head (coresettings w)) as [core|]; [|reflexivity].
  destruct (CoreSettings.agent_auto_update core); cbn [negb]; [|reflexivity].
  intros Hcurrent.
  rewrite run_gets_bind, run_bind, (older_than_none _ _ _ Hcurrent).
  reflexivity.
Qed.

(** X3: whatever the state of the table, a call of [agent_update] for an
    agent of the registry does not multiply its pending agent-update
    actions: afterwards there are at most as many as before, or one if there
    was none. *)
Theorem agent_update_pending_never_grows (w : world) (pk : Z) (agent : Agent.t) :
  Agent_objects_get pk w = (Ok agent, w) →
  length (pending_agentupdates pk (agent_update settings pk w).2)
  ≤ Nat.max 1 (length (pending_agentupdates pk w)).
Proof. apply agent_update_pending_no_growth. Qed.

End AgentUpdateMore.

Lemma agent_update_pending_never_grows_witness :
  let agent := sample_agent "1.1.10" (Some "64") in
  let w := sample_world agent [sample_action 3 "1.3.0"; sample_action 4 "1.1.0"] [] in
  length (pending_agentupdates 1 (agent_update sample_settings 1 w).2) ≤ 2.
Proof.
  intros agent w.
  exact (agent_update_pending_never_grows sample_settings w 1 agent eq_refl).
Defined.

Lemma agent_update_twice_is_pending_witness :
  let agent := sample_agent "1.1.10" (Some "64") in
  let w := sample_world agent [sample_action 3 "1.1.0"] [] in
  agent_update sample_settings 1 (agent_update sample_settings 1 w).2
  = (Ok "pending", (agent_update sample_settings 1 w).2).
Proof.
  intros agent w.
  apply (agent_update_twice_is_pending sample_settings w 1 agent
           [1; 1; 10]%N [1; 2; 0]%N); reflexivity.
Defined.

Lemma agent_update_leaves_other_agents_witness :
  let agent := sample_agent "1.1.10" (Some "64") in
  let foreign :=
    {| PendingAction.pk := 5; PendingAction.agent := 2;
       PendingAction.action_type := "agentupdate";
       PendingAction.status := "pending";
       PendingAction.details := {[ "version" := PStr "1.0.0" ]} |} in
  let w := sample_world agent [sample_action 3 "1.1.0"; foreign] [] in
  Agent_pendingactions 2 (agent_update sample_settings 1 w).2 = [foreign].
Proof.
  intros agent foreign w.
  refine (agent_update_leaves_other_agents sample_settings w 1 2 agent _ _ _);
    [ | reflexivity | discriminate ].
  compute_done.
Defined.

Lemma send_agent_update_task_skips_current_witness :
  let w := sample_world (sample_agent "1.2.0" (Some "64")) [] [] in
  send_agent_update_task sample_settings [1%Z; 7%Z] "1.2.0" w = (Ok tt, w).
Proof.
  intros w.
  apply (send_agent_update_task_skips_current sample_settings [1%Z; 7%Z] "1.2.0" w).
  cbn. constructor; [|constructor].
  exists [1; 2; 0]%N, [1; 2; 0]%N. repeat split; reflexivity.
Defined.


(** ** The uninstall workflow, continued *)

Section UninstallMore.

Variable settings : Settings.
Variable env : Env.

Local Abbreviation post := (uninstall_post settings).

(** From a counter below 10 the loop makes between one and [10 - attempts]
    posts, touches nothing else, and reports an error exactly when it ends
    with the counter at 10. *)
Lemma uninstall_loop_bounded (salt_id : string) (fuel : nat) :
  ∀ (attempts : Z) (w : world),
    (0 ≤ attempts < 10)%Z →
    Z.to_nat (10 - attempts) ≤ fuel →
    ∃ (k : nat) (error : bool),
      1 ≤ k ∧ (Z.of_nat k ≤ 10 - attempts)%Z
      ∧ (error = true → (Z.of_nat k = 10 - attempts)%Z)
      ∧ uninstall_loop settings env salt_id attempts w =
          (Ok (if error then 10%Z else 0%Z, error),
           set_trace (trace w ++ repeat (post salt_id) k) w).
Proof.
  induction fuel as [|fuel IH]; intros attempts w Hrange Hfuel; [lia|].
  rewrite uninstall_loop_step. cbv zeta.
  destruct (attempt_fails env salt_id (posts (trace w))).
  - case_decide as Hten.
    + exists 1, true. replace (attempts + 1)%Z with 10%Z by lia.
      split; [lia|]. split; [lia|]. split; [lia|reflexivity].
    + case_decide; [lia|].
      destruct (IH (attempts + 1)%Z (set_trace (trace w ++ [post salt_id]) w))
        as (k & error & Hk1 & Hk2 & Herr & Hrun); [lia | lia |].
      exists (S k), error. rewrite Hrun.
      rewrite set_trace_set_trace, trace_set_trace, <- app_assoc.
      split; [lia|]. split; [lia|]. split; [|reflexivity].
      intros He. specialize (Herr He). lia.
  - exists 1, false. split; [lia|]. split; [lia|]. split; [discriminate|reflexivity].
Qed.

(** X6: whatever the salt API answers, the uninstall task touches nothing
    but the trace, and what it adds is: [k] uninstall posts with [k] at most
    10 (none for a push-capable agent, at least one otherwise), then one of
    the two log lines (the failure line only after ten posts), then the
    key-delete post with its error line if it raises.  So a push-capable
    agent is never sent an uninstall call and is logged as uninstalled, and
    no run makes more than eleven posts. *)
Theorem uninstall_agent_task_effects
    (salt_id : string) (has_nats : bool) (w : world) :
  ∃ (k : nat) (error : bool),
    k ≤ 10
    ∧ (if has_nats then k = 0 else 1 ≤ k)
    ∧ (error = true → k = 10)
    ∧ uninstall_agent_task settings env salt_id has_nats w =
        (Ok "ok",
         set_trace
           (trace w ++ repeat (post salt_id) k
              ++ (if error then uninstall_failed_log salt_id
                  else uninstall_success_log salt_id)
                 :: key_delete_step settings env salt_id (posts (trace w) + k))
           w).
Proof.
  destruct has_nats.
  - exists 0, false. split; [lia|]. split; [reflexivity|]. split; [discriminate|].
    rewrite (uninstall_agent_task_after_loop settings env salt_id true w w 0%Z false)
      by reflexivity.
    rewrite Nat.add_0_r. reflexivity.
  - destruct (uninstall_loop_bounded salt_id 10 0%Z w)
      as (k & error & Hk1 & Hk2 & Herr & Hrun); [lia | reflexivity |].
    exists k, error. split; [lia|]. split; [exact Hk1|]. split.
    + intros He. specialize (Herr He). lia.
    + rewrite (uninstall_agent_task_after_loop settings env salt_id false w _ _ error Hrun).
      rewrite trace_set_trace, posts_app, posts_repeat_post, set_trace_set_trace.
      rewrite <- app_assoc. reflexivity.
Qed.

End UninstallMore.

(** ** The outage sweep, continued *)

Lemma swept_nil (w : world) : swept w [] [] = w.
Proof.
  destruct w. unfold swept, set_trace, set_outages. cbn.
  rewrite !app_nil_r, Z.add_0_r. reflexivity.
Qed.

Lemma swept_swept (w : world) (c1 c2 : list AgentOutage.t) (j1 j2 : list event) :
  swept (swept w c1 j1) c2 j2 = swept w (c1 ++ c2) (j1 ++ j2).
Proof.
  unfold swept, set_trace, set_outages. cbn.
  rewrite <- !app_assoc, length_app, Nat2Z.inj_add, Z.add_assoc. reflexivity.
Qed.

Lemma outage_recorded_swept (agent : Agent.t) (w : world) :
  outage_recorded agent w =
    swept w [AgentOutage.new (outage_seq w) (Agent.pk agent)]
      (outage_jobs agent (outage_seq w)).
Proof. reflexivity. Qed.

Lemma outage_jobs_for (agent : Agent.t) (pk : Z) (e : event) :
  In e (outage_jobs agent pk) → job_for agent pk e.
Proof.
  unfold outage_jobs, job_for. rewrite in_app_iff.
  destruct (Agent.maintenance_mode agent); cbn [negb];
    rewrite ?andb_false_r, ?andb_true_r; [cbn; tauto|].
  destruct (Agent.overdue_email_alert agent), (Agent.overdue_text_alert agent);
    cbn; intuition (subst; auto).
Qed.

Lemma last_is_active_after_record (agent : Agent.t) (pk : Z) (w : world) :
  last_is_active (outages_of pk (outage_recorded agent w)) = false →
  Agent.pk agent ≠ pk
  ∧ last_is_active (outages_of pk w) = false.
Proof.
  rewrite outages_of_recorded.
  destruct (Z.eqb_spec (Agent.pk agent) pk) as [->|Hne].
  - unfold last_is_active. rewrite last_snoc. discriminate.
  - rewrite app_nil_r. auto.
Qed.

(** What a sweep over a list of agents does. *)
Lemma sweep_run (l : list Agent.t) :
  ∀ w : world,
    ∃ (created : list AgentOutage.t) (jobs : list event),
      for_each l agent_outages_step w = (Ok tt, swept w created jobs)
      ∧ Forall
          (λ o, ∃ agent,
              In agent l ∧ alerting_overdue agent = true
              ∧ recorded_for agent o
              ∧ last_is_active (outages_of (Agent.pk agent) w) = false
              ∧ (outage_seq w ≤ AgentOutage.pk o)%Z)
          created
      ∧ NoDup (List.map AgentOutage.agent created)
      ∧ Forall
          (λ e, ∃ agent pk,
              In agent l
              ∧ In (AgentOutage.new pk (Agent.pk agent)) created
              ∧ job_for agent pk e)
          jobs.
Proof.
  induction l as [|agent l IH]; intros w.
  - exists [], []. rewrite swept_nil. repeat split; constructor.
  - rewrite for_each_cons, agent_outages_step_run.
    destruct (alerting_overdue agent) eqn:Hact; cbn [andb].
    2: { destruct (IH w) as (created & jobs & Hrun & Hcreated & Hnd & Hjobs).
         exists created, jobs. split; [exact Hrun|]. split; [|split; [exact Hnd|]].
         - eapply Forall_impl; [exact Hcreated|]. cbn.
           intros o (a & Ha & H). exists a. split; [right; exact Ha | exact H].
         - eapply Forall_impl; [exact Hjobs|]. cbn.
           intros e (a & pk & Ha & H). exists a, pk. split; [right; exact Ha | exact H]. }
    destruct (last_is_active (outages_of (Agent.pk agent) w)) eqn:Hlast; cbn [negb].
    { destruct (IH w) as (created & jobs & Hrun & Hcreated & Hnd & Hjobs).
      exists created, jobs. split; [exact Hrun|]. split; [|split; [exact Hnd|]].
      - eapply Forall_impl; [exact Hcreated|]. cbn.
        intros o (a & Ha & H). exists a. split; [right; exact Ha | exact H].
      - eapply Forall_impl; [exact Hjobs|]. cbn.
        intros e (a & pk & Ha & H). exists a, pk. split; [right; exact Ha | exact H]. }
    destruct (IH (outage_recorded agent w))
      as (created & jobs & Hrun & Hcreated & Hnd & Hjobs).
    set (o0 := AgentOutage.new (outage_seq w) (Agent.pk agent)).
    exists (o0 :: created), (outage_jobs agent (outage_seq w) ++ jobs).
    split; [|split; [|split]].
    + rewrite Hrun, outage_recorded_swept, swept_swept. reflexivity.
    + constructor.
      * exists agent. split; [left; reflexivity|]. split; [exact Hact|].
        split; [reflexivity|]. split; [exact Hlast|]. cbn. lia.
      * eapply Forall_impl; [exact Hcreated|]. cbn.
        intros o (a & Ha & Hacta & Hrec & Hlasta & Hseq).
        apply last_is_active_after_record in Hlasta as [_ Hlasta].
        exists a. split; [right; exact Ha|]. split; [exact Hacta|].
        split; [exact Hrec|]. split; [exact Hlasta|]. cbn in Hseq. lia.
    + cbn [List.map]. apply NoDup_cons. split; [|exact Hnd].
      intros Hin. apply list_elem_of_In, in_map_iff in Hin as (o & Hagent & Hin).
      rewrite List.Forall_forall in Hcreated.
      destruct (Hcreated o Hin) as (a & _ & _ & Hrec & Hlasta & _).
      apply last_is_active_after_record in Hlasta as [Hne _].
      apply Hne. rewrite Hrec in Hagent. cbn in Hagent. congruence.
    + apply Forall_app. split.
      * apply List.Forall_forall. intros e He. exists agent, (outage_seq w).
        split; [left; reflexivity|]. split; [left; reflexivity|].
        apply outage_jobs_for. exact He.
      * eapply Forall_impl; [exact Hjobs|]. cbn.
        intros e (a & pk & Ha & Hin & Hjob). exists a, pk.
        split; [right; exact Ha|]. split; [right; exact Hin | exact Hjob].
Qed.

(** X7: after the sweep, the latest outage record of every agent with an
    alert enabled and status overdue is active. *)
Theorem agent_outages_task_tracks_overdue (w : world) (agent : Agent.t) :
  In agent (agents w) →
  alerting_overdue agent = true →
  last_is_active (outages_of (Agent.pk agent) (agent_outages_task w).2) = true.
Proof.
  intros Hin Hact.
  destruct (sweep_tracks (agents w) w) as (_ & _ & _ & Hall).
  rewrite List.Forall_forall in Hall. exact (Hall agent Hin Hact).
Qed.

(** X8: the sweep only appends to the outage table and to the trace and
    leaves the rest of the world alone.  Each record it appends is a fresh
    one (unresolved, no flag set, key not below the next key of before)
    for an agent of the registry with an alert enabled and status overdue
    whose latest outage was not active, and no agent gets two. *)
Theorem agent_outages_task_appends (w : world) :
  ∃ (created : list AgentOutage.t) (jobs : list event),
    agent_outages_task w = (Ok tt, swept w created jobs)
    ∧ Forall
        (λ o, ∃ agent,
            In agent (agents w) ∧ alerting_overdue agent = true
            ∧ recorded_for agent o
            ∧ last_is_active (outages_of (Agent.pk agent) w) = false
            ∧ (outage_seq w ≤ AgentOutage.pk o)%Z)
        created
    ∧ NoDup (List.map AgentOutage.agent created).
Proof.
  destruct (sweep_run (agents w) w) as (created & jobs & Hrun & Hcreated & Hnd & _).
  exists created, jobs. auto.
Qed.

(** X9: every job the sweep schedules is an outage-email or outage-sms job
    for an outage the same sweep recorded, of an agent of the registry that
    is not in maintenance mode and has the alert of that job enabled; so an
    agent in maintenance mode gets its outage recorded but no job. *)
Theorem agent_outages_task_jobs (w : world) :
  ∃ (created : list AgentOutage.t) (jobs : list event),
    agent_outages_task w = (Ok tt, swept w created jobs)
    ∧ Forall
        (λ e, ∃ agent pk,
            In agent (agents w)
            ∧ In (AgentOutage.new pk (Agent.pk agent)) created
            ∧ job_for agent pk e)
        jobs.
Proof.
  destruct (sweep_run (agents w) w) as (created & jobs & Hrun & _ & _ & Hjobs).
  exists created, jobs. auto.
Qed.

Lemma agent_outages_task_tracks_overdue_witness :
  let agent := sample_agent "1.1.10" (Some "64") in
  let w := sample_world agent [] [sample_outage 3 (Some 100%Z)] in
  last_is_active (outages_of 1 (agent_outages_task w).2) = true.
Proof.
  intros agent w.
  apply (agent_outages_task_tracks_overdue w agent); [left; reflexivity | reflexivity].
Defined.

(** ** The notification jobs, continued *)

Lemma set_field_comm (f g : outage_field) (o : AgentOutage.t) :
  set_field f true (set_field g true o) = set_field g true (set_field f true o).
Proof. destruct o, f, g; reflexivity. Qed.

Lemma confirmed_comm (f g : outage_field) (pk pk' : Z) (rows : list AgentOutage.t) :
  confirmed f pk (confirmed g pk' rows) = confirmed g pk' (confirmed f pk rows).
Proof.
  unfold confirmed. rewrite !List.map_map. apply List.map_ext. intros row.
  destruct (Z.eqb (AgentOutage.pk row) pk) eqn:Hpk,
           (Z.eqb (AgentOutage.pk row) pk') eqn:Hpk';
    rewrite ?pk_set_field, ?Hpk, ?Hpk'; try reflexivity.
  apply set_field_comm.
Qed.

Lemma find_confirmed (f : outage_field) (pk pk' : Z) (rows : list AgentOutage.t) :
  List.find (λ o, Z.eqb (AgentOutage.pk o) pk') rows = None ↔
  List.find (λ o, Z.eqb (AgentOutage.pk o) pk') (confirmed f pk rows) = None.
Proof.
  induction rows as [|row rows IH]; cbn; [tauto|].
  destruct (Z.eqb (AgentOutage.pk row) pk);
    rewrite ?pk_set_field;
    destruct (Z.eqb (AgentOutage.pk row) pk'); try exact IH; split; discriminate.
Qed.

Lemma find_pk_None (pk : Z) (rows : list AgentOutage.t) :
  Forall (λ row, AgentOutage.pk row ≠ pk) rows →
  List.find (λ o, Z.eqb (AgentOutage.pk o) pk) rows = None.
Proof.
  induction 1 as [|row rows Hrow _ IH]; cbn; [reflexivity|].
  destruct (Z.eqb_spec (AgentOutage.pk row) pk); [contradiction | exact IH].
Qed.

Section NotificationMore.

Variable env : Env.

(** A notification job, run. *)
Lemma notification_task_run (n : notifier) (pk : Z) (w : world) :
  notification_task env n pk w =
    let slept := trace w ++ [Sleep (random_randint env 1 (jitter n))] in
    match List.find (λ o, Z.eqb (AgentOutage.pk o) pk) (outages w) with
    | None => (Raise (DoesNotExist "AgentOutage"), set_trace slept w)
    | Some _ =>
        if notifier_returns env n pk then
          (Ok tt,
           set_outages (confirmed (confirmation_flag n) pk (outages w))
             (outage_seq w) (set_trace (slept ++ [Notify n pk]) w))
        else (Raise NotifierError, set_trace (slept ++ [Notify n pk]) w)
    end.
Proof.
  cbv zeta.
  destruct n; cbn [notification_task jitter confirmation_flag];
    unfold agent_outage_email_task, agent_recovery_email_task,
      agent_outage_sms_task, agent_recovery_sms_task, sleep, emit, modify;
    rewrite run_bind; cbv beta iota; rewrite run_bind;
    unfold AgentOutage_objects_get at 1; cbn [outages set_trace];
    destruct (List.find _ (outages w)) as [outage|] eqn:Hfind;
    try reflexivity;
    apply List.find_some in Hfind as [_ Hpk]; apply Z.eqb_eq in Hpk;
    unfold call_notifier, emit, modify; rewrite !run_bind; cbv beta iota;
    rewrite Hpk; destruct (notifier_returns env _ pk);
    try reflexivity;
    unfold AgentOutage_save, modify, confirmed;
    rewrite get_set_field, pk_set_field, Hpk; reflexivity.
Qed.

(** X10: a notification job for an outage that is not in the table sleeps,
    then raises DoesNotExist: the notifier is not called and nothing is
    written. *)
Theorem notification_job_missing_outage (n : notifier) (pk : Z) (w : world) :
  Forall (λ row, AgentOutage.pk row ≠ pk) (outages w) →
  notification_task env n pk w =
    (Raise (DoesNotExist "AgentOutage"),
     set_trace (trace w ++ [Sleep (random_randint env 1 (jitter n))]) w).
Proof.
  intros Hmissing. rewrite notification_task_run. cbv zeta.
  rewrite (find_pk_None _ _ Hmissing). reflexivity.
Qed.

(** X11: two notification jobs whose notifiers return, run one after the
    other on outages of the table, both return, and they leave the same
    outage table in either order: the table of before with both flags
    set. *)
Theorem notification_jobs_commute
    (n1 n2 : notifier) (pk1 pk2 : Z) (w : world) (o1 o2 : AgentOutage.t) :
  AgentOutage_objects_get pk1 w = (Ok o1, w) →
  AgentOutage_objects_get pk2 w = (Ok o2, w) →
  notifier_returns env n1 pk1 = true →
  notifier_returns env n2 pk2 = true →
  let w12 := notification_task env n2 pk2 (notification_task env n1 pk1 w).2 in
  let w21 := notification_task env n1 pk1 (notification_task env n2 pk2 w).2 in
  w12.1 = Ok tt ∧ w21.1 = Ok tt
  ∧ outages w12.2 = outages w21.2
  ∧ outages w12.2
    = confirmed (confirmation_flag n2) pk2
        (confirmed (confirmation_flag n1) pk1 (outages w)).
Proof.
  intros Hget1 Hget2 Hn1 Hn2.
  assert (∀ pk o, AgentOutage_objects_get pk w = (Ok o, w) →
                  List.find (λ o, Z.eqb (AgentOutage.pk o) pk) (outages w) ≠ None)
    as Hfound.
  { intros pk o. unfold AgentOutage_objects_get.
    destruct (List.find _ _); [discriminate|]. intros H. inversion H. }
  pose proof (Hfound _ _ Hget1) as Hf1. pose proof (Hfound _ _ Hget2) as Hf2.
  cbv zeta. rewrite !(notification_task_run _ _ w). cbv zeta.
  destruct (List.find _ (outages w)) as [r1|] eqn:E1 in |- *; [|contradiction].
  destruct (List.find (λ o, Z.eqb (AgentOutage.pk o) pk2) (outages w)) as [r2|] eqn:E2;
    [|contradiction].
  rewrite Hn1, Hn2. cbn [snd]. rewrite !notification_task_run. cbv zeta.
  cbn [outages set_outages set_trace outage_seq trace].
  destruct (List.find _ (confirmed (confirmation_flag n1) pk1 (outages w)))
    as [r2'|] eqn:E2'.
  2: { apply find_confirmed in E2'. congruence. }
  destruct (List.find (λ o, Z.eqb (AgentOutage.pk o) pk1)
              (confirmed (confirmation_flag n2) pk2 (outages w)))
    as [r1'|] eqn:E1'.
  2: { apply find_confirmed in E1'. congruence. }
  rewrite Hn1, Hn2. cbn [fst snd outages set_outages].
  repeat split. apply confirmed_comm.
Qed.

End NotificationMore.

Lemma notification_job_missing_outage_witness :
  let w := sample_world (sample_agent "1.1.10" (Some "64")) []
             [sample_outage 3 None] in
  agent_outage_email_task (sample_env 0) 4 w =
    (Raise (DoesNotExist "AgentOutage"), set_trace [Sleep 5] w).
Proof.
  intros w.
  apply (notification_job_missing_outage (sample_env 0) send_outage_email 4 w).
  constructor; [discriminate | constructor].
Defined.

Lemma notification_jobs_commute_witness :
  let w := sample_world (sample_agent "1.1.10" (Some "64")) []
             [sample_outage 3 None; sample_outage 4 None] in
  outages
    (agent_recovery_sms_task (sample_env 0) 4
       (agent_outage_sms_task (sample_env 0) 3 w).2).2
  = outages
      (agent_outage_sms_task (sample_env 0) 3
         (agent_recovery_sms_task (sample_env 0) 4 w).2).2.
Proof.
  intros w.
  exact
    (proj1
       (proj2
          (proj2
             (notification_jobs_commute (sample_env 0)
                send_outage_sms send_recovery_sms 3 4 w
                (sample_outage 3 None) (sample_outage 4 None)
                eq_refl eq_refl eq_refl eq_refl)))).
Defined.

(** ** The script-run notifier, continued *)

Lemma taken_failed_in (ok : smtp_action → bool) (pre post : list smtp_action)
    (a : smtp_action) :
  In a pre → ok a = false → taken ok (pre ++ post) = taken ok pre.
Proof.
  induction pre as [|x pre IH]; cbn; [tauto|].
  intros [->|Hin] Hfail.
  - rewrite Hfail. reflexivity.
  - destruct (ok x); [|reflexivity]. rewrite (IH Hin Hfail). reflexivity.
Qed.

Lemma taken_incl (ok : smtp_action → bool) (steps : list smtp_action)
    (a : smtp_action) :
  In a (taken ok steps) → In a steps.
Proof.
  induction steps as [|x steps IH]; cbn; [tauto|].
  intros [->|Hin]; [tauto|]. destruct (ok x); [auto|destruct Hin].
Qed.

Section ScriptRunMore.

Variable env : Env.

Lemma smtp_run (a : smtp_action) (w : world) :
  smtp env a w =
    (if smtp_ok env a then Ok tt else Raise SMTPException,
     set_trace (trace w ++ [Smtp a]) w).
Proof.
  unfold smtp, emit, modify. rewrite run_bind. cbv beta iota.
  destruct (smtp_ok env a); reflexivity.
Qed.

Lemma logger_run (lvl : level) (msg : string) (w : world) :
  logger lvl msg w = (Ok tt, set_trace (trace w ++ [Log lvl msg]) w).
Proof. reflexivity. Qed.

Lemma then_unit (c : M unit) (w : world) : (c;; mret tt) w = c w.
Proof. rewrite run_bind. destruct (c w) as [[[]|e] w']; reflexivity. Qed.

Lemma bind_ext {A B} (c : M A) (f g : A → M B) (w : world) :
  (∀ a w', f a w' = g a w') → (c ≫= f) w = (c ≫= g) w.
Proof.
  intros H. rewrite !run_bind. destruct (c w) as [[a|e] w']; [apply H | reflexivity].
Qed.

Lemma set_trace_same (w : world) : set_trace (trace w) w = w.
Proof. destruct w. reflexivity. Qed.

(** A list of SMTP steps, run: the steps up to the first that fails. *)
Lemma smtp_steps_run (steps : list smtp_action) :
  ∀ w : world,
    for_each steps (smtp env) w =
      (if forallb (smtp_ok env) steps then Ok tt else Raise SMTPException,
       set_trace (trace w ++ List.map Smtp (taken (smtp_ok env) steps)) w).
Proof.
  induction steps as [|a steps IH]; intros w.
  - cbn. rewrite app_nil_r, set_trace_same. reflexivity.
  - rewrite for_each_cons, smtp_run. cbn [forallb taken List.map].
    destruct (smtp_ok env a); cbn [andb].
    + rewrite IH, trace_set_trace, set_trace_set_trace, <- app_assoc. reflexivity.
    + reflexivity.
Qed.

(** The [try] block of the notifier is its SMTP session, step by step. *)
Lemma report_block_run (CORE : CoreSettings.t) (subject to body : string)
    (w : world) :
  (smtp env (SmtpConnect (CoreSettings.smtp_host CORE)
               (CoreSettings.smtp_port CORE) 20);;
   if CoreSettings.smtp_requires_auth CORE then
     smtp env SmtpEhlo;;
     smtp env SmtpStarttls;;
     smtp env (SmtpLogin (CoreSettings.smtp_host_user CORE)
                 (CoreSettings.smtp_host_password CORE));;
     smtp env (SmtpSendMessage subject (CoreSettings.smtp_from_email CORE) to body);;
     smtp env SmtpQuit
   else
     smtp env (SmtpSendMessage subject (CoreSettings.smtp_from_email CORE) to body);;
     smtp env SmtpQuit) w
  = for_each (smtp_session CORE subject to body) (smtp env) w.
Proof.
  unfold smtp_session, smtp_preamble.
  destruct (CoreSettings.smtp_requires_auth CORE); cbn [app for_each];
    repeat (apply bind_ext; intros [] ?); symmetry; apply then_unit.
Qed.

(** X12: when the reply to [runscriptfull] is not "timeout" and has no
    [execution_time] to read (a dictionary without that key, or no
    dictionary at all, such as another string), the task raises what the
    lookup raises, right after the call: no SMTP step is taken. *)
Theorem run_script_unusable_reply_raises
    (agentpk scriptpk nats_timeout : Z) (nats_data : gmap string pyval)
    (emails : list string) (w : world) (agent : Agent.t) (script : Script.t)
    (e : exn) :
  Agent_objects_get agentpk w = (Ok agent, w) →
  Script_objects_get scriptpk w = (Ok script, w) →
  let call := <["func" := PStr "runscriptfull"]> nats_data in
  eq_str (nats_reply env agentpk call) "timeout" = false →
  subscript_key (nats_reply env agentpk call) "execution_time" = Raise e →
  run_script_email_results_task env agentpk scriptpk nats_timeout nats_data emails w
  = (Raise e,
     set_trace (trace w ++ [NatsCmd agentpk call true (Some nats_timeout)]) w).
Proof.
  intros Hagent Hscript call Hreply Hkey.
  destruct (Agent_objects_get_pk _ _ _ _ Hagent) as [Hpk _].
  unfold run_script_email_results_task.
  rewrite run_bind, Hagent, run_bind, Hscript. cbv zeta.
  unfold nats_cmd, emit, modify. rewrite !run_bind. cbv beta iota.
  rewrite Hpk. fold call. cbn [mret M_ret]. rewrite Hreply.
  unfold CoreSettings_objects_first. rewrite run_gets_bind, run_lift_bind, Hkey.
  reflexivity.
Qed.

(** The report of a script run: refused when a header is of more than one
    line, sent otherwise. *)
Lemma run_script_report_run
    (agentpk scriptpk nats_timeout : Z) (nats_data : gmap string pyval)
    (emails : list string) (w : world) (agent : Agent.t) (script : Script.t)
    (CORE : CoreSettings.t) (d : gmap string pyval)
    (execution_time retcode stdout stderr : pyval) (exec_time : string) :
  Agent_objects_get agentpk w = (Ok agent, w) →
  Script_objects_get scriptpk w = (Ok script, w) →
  head (coresettings w) = Some CORE →
  let call := <["func" := PStr "runscriptfull"]> nats_data in
  nats_reply env agentpk call = PDict d →
  d !! "execution_time" = Some execution_time →
  format_4f env execution_time = Some exec_time →
  d !! "retcode" = Some retcode →
  d !! "stdout" = Some stdout →
  d !! "stderr" = Some stderr →
  let subject := report_subject agent script in
  let session :=
    smtp_session CORE subject (report_to CORE emails)
      (report_body env subject exec_time retcode stdout stderr) in
  run_script_email_results_task env agentpk scriptpk nats_timeout nats_data emails w
  = if has_second_line subject
       || has_second_line (CoreSettings.smtp_from_email CORE)
       || has_second_line (report_to CORE emails)
    then
      (Raise ValueError,
       set_trace (trace w ++ [NatsCmd agentpk call true (Some nats_timeout)]) w)
    else
      (Ok tt,
       set_trace
         (trace w
            ++ NatsCmd agentpk call true (Some nats_timeout)
               :: List.map Smtp (taken (smtp_ok env) session)
            ++ (if forallb (smtp_ok env) session then []
                else [Log ERROR "SMTPException"]))
         w).
Proof.
  intros Hagent Hscript Hcore call Hreply Het Hfmt Hret Hout Herr subject session.
  destruct (Agent_objects_get_pk _ _ _ _ Hagent) as [Hpk _].
  unfold run_script_email_results_task.
  rewrite run_bind, Hagent, run_bind, Hscript. cbv zeta.
  unfold nats_cmd, emit, modify. rewrite !run_bind. cbv beta iota.
  rewrite Hpk. fold call. cbn [mret M_ret]. rewrite Hreply. cbn [eq_str].
  unfold CoreSettings_objects_first. rewrite run_gets_bind.
  cbn [trace set_trace coresettings]. rewrite Hcore.
  unfold subscript_key, getitem, str_format_4f.
  rewrite run_lift_bind, Het, run_lift_bind, Hfmt, run_lift_bind, Hret,
    run_lift_bind, Hout, run_lift_bind, Herr.
  subst session subject. unfold report_subject at 1, report_to at 1.
  rewrite run_lift_bind. unfold set_header at 1.
  destruct (has_second_line _); cbn [orb]; [reflexivity|].
  rewrite run_lift_bind. unfold set_header at 1.
  destruct (has_second_line (CoreSettings.smtp_from_email CORE)); cbn [orb];
    [reflexivity|].
  rewrite run_lift_bind. unfold set_header at 1.
  destruct (has_second_line _); [reflexivity|].
  unfold try_except. cbv zeta.
  rewrite (report_block_run CORE), smtp_steps_run, trace_set_trace,
    set_trace_set_trace.
  unfold report_subject, report_body, report_to.
  destruct (forallb _ _); rewrite ?logger_run;
    cbn [trace set_trace]; rewrite ?set_trace_set_trace;
    repeat rewrite <- app_assoc; rewrite ?app_nil_r; reflexivity.
Qed.


(** X14: when a step that comes before the report fails (the connection,
    or, with authentication required, the upgrade or the login), the report
    is not sent: no SendMessage step is added to the trace. *)
Theorem run_script_no_report_after_failed_step
    (agentpk scriptpk nats_timeout : Z) (nats_data : gmap string pyval)
    (emails : list string) (w : world) (agent : Agent.t) (script : Script.t)
    (CORE : CoreSettings.t) (d : gmap string pyval)
    (execution_time retcode stdout stderr : pyval) (exec_time : string)
    (failed : smtp_action) :
  Agent_objects_get agentpk w = (Ok agent, w) →
  Script_objects_get scriptpk w = (Ok script, w) →
  head (coresettings w) = Some CORE →
  nats_reply env agentpk (<["func" := PStr "runscriptfull"]> nats_data) = PDict d →
  d !! "execution_time" = Some execution_time →
  format_4f env execution_time = Some exec_time →
  d !! "retcode" = Some retcode →
  d !! "stdout" = Some stdout →
  d !! "stderr" = Some stderr →
  In failed (smtp_preamble CORE) →
  smtp_ok env failed = false →
  ∀ subject from to body : string,
    ¬ In (Smtp (SmtpSendMessage subject from to body)) (trace w) →
    ¬ In (Smtp (SmtpSendMessage subject from to body))
        (trace
           (run_script_email_results_task env agentpk scriptpk nats_timeout
              nats_data emails w).2).
Proof.
  intros Hagent Hscript Hcore Hreply Het Hfmt Hret Hout Herr Hin Hfail
    subject from to body Hbefore.
  rewrite (run_script_report_run agentpk scriptpk nats_timeout nats_data emails w
             agent script CORE d execution_time retcode stdout stderr exec_time)
    by assumption.
  destruct (_ || _).
  { cbn [snd trace set_trace]. rewrite in_app_iff.
    intros [H|[H|[]]]; [contradiction | discriminate]. }
  cbn [snd trace set_trace]. unfold smtp_session.
  rewrite (taken_failed_in _ _ _ failed Hin Hfail).
  rewrite in_app_iff. intros [H|H]; [contradiction|].
  destruct H as [H|H]; [discriminate|].
  apply in_app_iff in H as [H|H].
  - apply in_map_iff in H as (a & Ha & Htaken). injection Ha as ->.
    apply taken_incl in Htaken. unfold smtp_preamble in Htaken.
    destruct (CoreSettings.smtp_requires_auth CORE); cbn in Htaken;
      intuition discriminate.
  - destruct (forallb _ _); cbn in H; intuition discriminate.
Qed.

(** X15: the service check of an agent of the registry pings it with a
    two-second bound and, only when the reply is "pong", logs the recovery
    and sends the [recover] command for the agent service, unawaited; any
    other reply ends the check there.  The registry is left alone. *)
Theorem check_agent_service_recovers_on_pong
    (pk : Z) (w : world) (agent : Agent.t) :
  Agent_objects_get pk w = (Ok agent, w) →
  let ping : gmap string pyval := {[ "func" := PStr "ping" ]} in
  _check_agent_service env pk w =
    (Ok tt,
     set_trace
       (trace w
          ++ NatsCmd pk ping true (Some 2%Z)
             :: (if eq_str (nats_reply env pk ping) "pong" then
                   [Log INFO
                      ("Detected crashed tacticalagent service on "
                         +:+ Agent.hostname agent +:+ ", attempting recovery");
                    NatsCmd pk
                      {[ "func" := PStr "recover";
                         "payload" := PDict {[ "mode" := PStr "tacagent" ]} ]}
                      false None]
                 else []))
       w).
Proof.
  intros Hget ping.
  destruct (Agent_objects_get_pk _ _ _ _ Hget) as [Hpk _].
  unfold _check_agent_service. rewrite run_bind, Hget.
  unfold nats_cmd, emit, modify. rewrite !run_bind. cbv beta iota.
  rewrite Hpk. fold ping. cbn [mret M_ret].
  destruct (eq_str (nats_reply env pk ping) "pong"); [|reflexivity].
  rewrite run_bind, logger_run. unfold nats_cmd_nowait, emit, modify.
  rewrite Hpk. cbn. repeat rewrite <- app_assoc. reflexivity.
Qed.

End ScriptRunMore.

Lemma run_script_unusable_reply_raises_witness :
  let w := sample_world (sample_agent "1.1.12" (Some "64")) [] [] in
  let env :=
    {| nats_reply := λ _ _, PStr "natsdown"; http_post := λ _, None;
       notifier_returns := λ _ _, true; smtp_ok := λ _, true;
       random_seed := 0; format_4f := λ _, None; py_str := λ _, "" |} in
  run_script_email_results_task env 1 1 30 ∅ [] w
  = (Raise TypeError,
     set_trace [NatsCmd 1 {[ "func" := PStr "runscriptfull" ]} true (Some 30%Z)] w).
Proof.
  intros w env.
  exact
    (run_script_unusable_reply_raises env 1 1 30 ∅ [] w
       (sample_agent "1.1.12" (Some "64"))
       {| Script.pk := 1; Script.name := "cleanup" |} TypeError
       eq_refl eq_refl eq_refl eq_refl).
Defined.


Lemma run_script_no_report_after_failed_step_witness :
  let w :=
    with_core (sample_core true)
      (sample_world (sample_agent "1.1.12" (Some "64")) [] []) in
  ¬ In (Smtp (SmtpSendMessage "DESKTOP-1 cleanup Results" "rmm@example.com"
                "admin@example.com" ""))
      (trace (run_script_email_results_task (sample_mail_env true false) 1 1 30 ∅
                [] w).2) ∧ True.
Proof.
  intros w. split; [|exact I].
  refine
    (run_script_no_report_after_failed_step (sample_mail_env true false) 1 1 30 ∅
       [] w (sample_agent "1.1.12" (Some "64"))
       {| Script.pk := 1; Script.name := "cleanup" |}
       (sample_core true) sample_script_result
       (PInt 2) (PInt 0) (PStr "done") (PStr "") "2.0000" (SmtpLogin "rmm" "secret")
       eq_refl eq_refl eq_refl eq_refl eq_refl eq_refl eq_refl eq_refl eq_refl
       _ eq_refl _ _ _ _ _).
  - right. right. right. left. reflexivity.
  - intros [].
Defined.

Lemma check_agent_service_recovers_on_pong_witness :
  let agent := sample_agent "1.1.12" (Some "64") in
  let w := sample_world agent [] [] in
  _check_agent_service (sample_mail_env false true) 1 w
  = (Ok tt, set_trace [NatsCmd 1 {[ "func" := PStr "ping" ]} true (Some 2%Z)] w).
Proof.
  intros agent w.
  exact
    (check_agent_service_recovers_on_pong (sample_mail_env false true) 1 w agent
       eq_refl).
Defined.


(** ** Module sync in batches *)

Lemma range_step_bound (n k : nat) : k < (n + 50 - 1) / 50 → k * 50 < n.
Proof.
  intros Hk.
  pose proof (Nat.Div0.mul_div_le (n + 50 - 1) 50) as Hdiv.
  nia.
Qed.

Lemma range_step_enough (n : nat) : n ≤ ((n + 50 - 1) / 50) * 50.
Proof.
  pose proof (Nat.div_mod_eq (n + 50 - 1) 50) as Hdiv.
  pose proof (Nat.mod_upper_bound (n + 50 - 1) 50) as Hmod.
  lia.
Qed.

Lemma slice_take_drop {A} (l : list A) (i : nat) :
  slice l i (i + 50) = take 50 (drop i l).
Proof. unfold slice. replace (i + 50 - i) with 50 by lia. reflexivity. Qed.

Lemma concat_slices {A} (l : list A) (m : nat) :
  List.concat
    (List.map (λ i, slice l i (i + 50)) (List.map (λ k, k * 50) (seq 0 m)))
  = take (m * 50) l.
Proof.
  induction m as [|m IH]; [reflexivity|].
  rewrite seq_S, !List.map_app, List.concat_app, IH. cbn [List.map List.concat].
  rewrite app_nil_r, slice_take_drop, take_take_drop.
  f_equal. lia.
Qed.

(** X16: the batches of the module sync are the salt ids in the order of
    the list, cut into consecutive pieces: put together they are the list
    again, there are as many as 50 goes into the length, rounded up, none is
    empty or longer than 50, and every one but the last has exactly 50. *)
Theorem chunks_partition (online : list string) :
  List.concat (chunks online) = online
  ∧ length (chunks online) = (length online + 49) / 50
  ∧ Forall (λ chunk, 1 ≤ length chunk ≤ 50) (chunks online)
  ∧ ∀ (i : nat) (chunk : list string),
      chunks online !! i = Some chunk →
      S i < length (chunks online) →
      length chunk = 50.
Proof.
  unfold chunks, range_step.
  replace (length online + 49) with (length online + 50 - 1) by lia.
  split; [|split; [|split]].
  - rewrite concat_slices. apply take_ge, range_step_enough.
  - rewrite !List.length_map, List.length_seq. reflexivity.
  - rewrite List.map_map. apply List.Forall_forall. intros chunk Hin.
    apply in_map_iff in Hin as (k & <- & Hk). apply in_seq in Hk.
    rewrite slice_take_drop, length_take, length_drop.
    pose proof (range_step_bound (length online) k) as Hbound. lia.
  - intros i chunk Hi Hnext.
    rewrite !List.length_map, List.length_seq in Hnext.
    rewrite List.map_map in Hi.
    rewrite list_lookup_fmap in Hi.
    destruct (seq 0 _ !! i) as [k|] eqn:Hk; [|discriminate].
    cbn in Hi. injection Hi as <-.
    apply lookup_seq in Hk as [-> _]. cbn [Nat.add].
    rewrite slice_take_drop, length_take, length_drop.
    pose proof (range_step_bound (length online) (S i) Hnext) as Hbound. lia.
Qed.

(** ** Protocol generations *)

Lemma cmpkey_short (v : pyver.Version) :
  length v ≤ 3 → length (pyver._cmpkey v) ≤ 3.
Proof.
  destruct v as [|a [|b [|c [|? ?]]]]; cbn; try lia;
    repeat match goal with
      | |- context [N.eqb ?x 0] => destruct (N.eqb x 0); cbn
      end; lia.
Qed.

Lemma generations_split (k : list N) :
  length k ≤ 3 →
  match pyver.tuple_compare [1; 1; 12]%N k with Gt => false | _ => true end
  = negb match pyver.tuple_compare k [1; 1; 11]%N with Gt => false | _ => true end.
Proof.
  destruct k as [|a [|b [|c [|? ?]]]]; cbn [length]; try lia; intros _;
    cbn [pyver.tuple_compare];
    repeat match goal with
      | |- context [(?x ?= ?y)%N] =>
          destruct (N.compare_spec x y); subst; try lia
      end; reflexivity.
Qed.

(** X17: the full check-in and the update decision draw the line between
    the generations at the same place for versions of at most three
    numbers: the check-in list holds exactly the agents that [agent_update]
    would address with a pushed command (version above 1.1.11, which for
    such versions is version at least 1.1.12). *)
Theorem check_in_agents_are_modern (q : list Agent.t) :
  Forall
    (λ i, ∃ v, pyver.parse (Agent.version i) = Some v ∧ length v ≤ 3) q →
  check_in_agents q = Ok (List.map Agent.pk (List.filter modern_generation q)).
Proof.
  induction 1 as [|i q (v & Hv & Hshort) _ IH]; [reflexivity|].
  cbn [check_in_agents List.filter]. unfold modern_generation at 1.
  unfold pyver_parse. rewrite Hv.
  change (pyver.parse "1.1.12") with (Some [1; 1; 12]%N).
  cbn [mbind result_bind]. rewrite IH. cbn [mbind result_bind mret result_ret].
  unfold pyver.leb, pyver.compare.
  change (pyver._cmpkey [1; 1; 12]%N) with [1; 1; 12]%N.
  change (pyver._cmpkey [1; 1; 11]%N) with [1; 1; 11]%N.
  rewrite (generations_split _ (cmpkey_short v Hshort)).
  destruct (pyver.tuple_compare (pyver._cmpkey v) [1; 1; 11]%N); reflexivity.
Qed.

Lemma check_in_agents_are_modern_witness :
  check_in_agents
    [sample_agent "1.1.11" (Some "64"); sample_agent "1.1.12" None;
     sample_agent "1.2" (Some "32")]
  = Ok [1%Z; 1%Z].
Proof.
  apply (check_in_agents_are_modern
           [sample_agent "1.1.11" (Some "64"); sample_agent "1.1.12" None;
            sample_agent "1.2" (Some "32")]).
  repeat constructor.
  - exists [1; 1; 11]%N. split; [reflexivity | cbn; lia].
  - exists [1; 1; 12]%N. split; [reflexivity | cbn; lia].
  - exists [1; 2]%N. split; [reflexivity | cbn; lia].
Defined.

(** ** The system-information sync *)

Lemma sync_sysinfo_online_run (q : list Agent.t) :
  Forall (λ i, pyver.parse (Agent.version i) ≠ None) q →
  sync_sysinfo_online q = Ok (List.filter sync_eligible q).
Proof.
  induction 1 as [|i q Hv _ IH]; [reflexivity|].
  cbn [sync_sysinfo_online List.filter]. unfold sync_eligible at 1.
  unfold pyver_parse.
  destruct (pyver.parse (Agent.version i)) as [v|]; [|contradiction].
  change (pyver.parse "1.1.3") with (Some [1; 1; 3]%N).
  cbn [mbind result_bind]. rewrite IH. reflexivity.
Qed.

Lemma for_each_nats_cmd_nowait (data : gmap string pyval) (l : list Agent.t) :
  ∀ w : world,
    for_each l (λ agent, nats_cmd_nowait agent data) w =
      (Ok tt,
       set_trace
         (trace w ++ List.map (λ agent, NatsCmd (Agent.pk agent) data false None) l)
         w).
Proof.
  induction l as [|agent l IH]; intros w.
  - cbn. rewrite app_nil_r. destruct w. reflexivity.
  - rewrite for_each_cons. unfold nats_cmd_nowait at 1, emit, modify.
    rewrite IH. cbn [trace set_trace List.map].
    rewrite <- app_assoc. reflexivity.
Qed.

(** X18: when the version of every agent is a version, the
    system-information sync sends one unawaited [sync] command to each agent
    that is online with version at least 1.1.3, in the order of the
    registry, and does nothing else: no command goes to an agent that is not
    online, and the registry is left alone. *)
Theorem sync_sysinfo_task_sends (w : world) :
  Forall (λ i, pyver.parse (Agent.version i) ≠ None) (agents w) →
  sync_sysinfo_task w =
    (Ok tt,
     set_trace
       (trace w
          ++ List.map
               (λ agent,
                  NatsCmd (Agent.pk agent) {[ "func" := PStr "sync" ]} false None)
               (List.filter sync_eligible (agents w)))
       w).
Proof.
  intros Hversions. unfold sync_sysinfo_task.
  rewrite run_gets_bind, run_lift_bind, (sync_sysinfo_online_run _ Hversions).
  apply for_each_nats_cmd_nowait.
Qed.

Lemma sync_sysinfo_task_sends_witness :
  let online :=
    {| Agent.pk := 2; Agent.hostname := "DESKTOP-2"; Agent.version := "1.1.3";
       Agent.arch := Some "64"; Agent.has_nats := true;
       Agent.status := "online"; Agent.overdue_email_alert := false;
       Agent.overdue_text_alert := false; Agent.maintenance_mode := false;
       Agent.winagent_dl := ""; Agent.win_inno_exe := "" |} in
  let w :=
    {| agents := [sample_agent "1.2.0" (Some "64"); online];
       pendingactions := []; pendingaction_seq := 1; outages := [];
       outage_seq := 1; scripts := []; coresettings := []; trace := [] |} in
  sync_sysinfo_task w =
    (Ok tt, set_trace [NatsCmd 2 {[ "func" := PStr "sync" ]} false None] w).
Proof.
  intros online w.
  apply (sync_sysinfo_task_sends w).
  repeat constructor; discriminate.
Defined.
